(** * OVTFOptimizer and OVTFGraphIterator: a shallow embedding

    Sources embedded here:
    - [openvino_tensorflow/grappler/ovtf_optimizer.cc]
      ([OVTFOptimizer::Init], [OVTFOptimizer::Optimize],
      [OVTFOptimizer::FreshIndex]);
    - [openvino_tensorflow/ovtf_graph_iterator.h] ([OVTFGraphIterator]).

    Conventions.  C++ [int] is a 32-bit two's complement integer and
    [size_t] a 64-bit unsigned integer (LP64); both are carried as [Z] with
    the conversions written out.  [std::string] is [string], [std::set] is
    [gset], [std::map] and the protobuf [Map] are [gmap], [std::vector] is
    [list].  Calls that leave the translation unit (TensorFlow, OCM, the
    other files of the bridge) are fields of one record of collaborators;
    every such call is recorded, in order, in the trace of the run. *)

From Stdlib Require Import ZArith String Ascii List Lia.
From stdpp Require Import base tactics option list gmap sets strings.

Local Open Scope Z_scope.
Local Open Scope string_scope.

Set Warnings "-clear-no-such-hyp".

(** ** Machine integers *)

Module Int.

Definition INT_MAX : Z := 2 ^ 31 - 1.
Definition INT_MIN : Z := - 2 ^ 31.
Definition SIZE_MAX : Z := 2 ^ 64 - 1.

(** Conversion to [int]: the value modulo [2^32], read as signed. *)
Definition to_int (z : Z) : Z := (z + 2 ^ 31) mod 2 ^ 32 - 2 ^ 31.

(** Conversion to [size_t]: the value modulo [2^64]. *)
Definition to_size_t (z : Z) : Z := z mod 2 ^ 64.

Definition in_int (z : Z) : Prop := INT_MIN <= z <= INT_MAX.

End Int.

(** ** The [std::string] operations used by the pass *)

Module StdString.

(** [std::string::npos] *)
Definition npos : Z := Int.SIZE_MAX.

Fixpoint find_from (c : ascii) (s : string) (i : Z) : Z :=
  match s with
  | EmptyString => npos
  | String a s' => if Ascii.eqb a c then i else find_from c s' (i + 1)
  end.

(** [s.find(c)] for a one-character pattern: the index of the first
    occurrence, or [npos]. *)
Definition find (s : string) (c : ascii) : Z := find_from c s 0.

(** [s.substr(0, count)]: the first [min(count, s.size())] characters. *)
Definition substr0 (s : string) (count : Z) : string :=
  substring 0 (Z.to_nat (Z.min count (Z.of_nat (String.length s)))) s.

(** [c] occurs somewhere in [s]. *)
Definition occurs (c : ascii) (s : string) : Prop :=
  exists pre post, s = pre +:+ String c post.

(** [s.c_str()] read as a C string: the characters before the first NUL. *)
Fixpoint c_str (s : string) : string :=
  match s with
  | EmptyString => EmptyString
  | String a s' =>
      if Ascii.eqb a Ascii.zero then EmptyString else String a (c_str s')
  end.

(** [s[0]] of a NUL-terminated C string: the terminator when [s] is empty. *)
Definition front (s : string) : ascii :=
  match s with
  | EmptyString => Ascii.zero
  | String c _ => c
  end.

End StdString.

(** ** Fetch entries (Optimize, "Fetch Nodes" loop)

<<
  for (const string& f : item.fetch) {
    int pos = f.find(":");
    fetch_nodes.insert(f.substr(0, pos));
  }
>> *)

Definition fetch_node_name (f : string) : string :=
  let pos : Z := Int.to_int (StdString.find f ":") in
  StdString.substr0 f (Int.to_size_t pos).

Definition fetch_nodes_of (fetch : list string) : gset string :=
  foldl (fun acc f => {[ fetch_node_name f ]} ∪ acc) ∅ fetch.

(** ** Data model *)

(** [tensorflow::Status]: success, or an error code with its message. *)
Inductive Status : Type :=
| OK
| Error (code : Z) (msg : string).

Definition ok (s : Status) : bool :=
  match s with OK => true | Error _ _ => false end.

Definition error_message (s : Status) : string :=
  match s with OK => "" | Error _ m => m end.

(** [tensorflow::AttrValue], restricted to the kinds the pass touches. *)
Inductive AttrValue : Type :=
| AttrS (s : string)
| AttrB (b : bool)
| AttrI (i : Z)
| AttrNone.

(** [AttrValue::s()]: the string payload, empty when another kind is set. *)
Definition AttrValue_s (v : AttrValue) : string :=
  match v with AttrS s => s | _ => "" end.

Record NodeDef : Type := mkNodeDef {
  nd_name : string;
  nd_op : string;
  nd_input : list string;
  nd_attr : gmap string AttrValue
}.

Record GraphDef : Type := mkGraphDef { gd_node : list NodeDef }.

(** [tensorflow::Node] wraps a [NodeDef]; [name()] and [type_string()] read
    it and [AddAttr] overwrites one attribute. *)
Definition Node : Type := NodeDef.
Definition Node_name (n : Node) : string := nd_name n.
Definition Node_type_string (n : Node) : string := nd_op n.
Definition Node_AddAttr (key : string) (v : AttrValue) (n : Node) : Node :=
  mkNodeDef (nd_name n) (nd_op n) (nd_input n) (<[key := v]> (nd_attr n)).

(** [tensorflow::Graph]: the nodes in id order.  A [Node*] is the position
    of the node in this list. *)
Record Graph : Type := mkGraph { graph_nodes : list Node }.

Definition Tensor : Type := list Z.

(** [tensorflow::grappler::GrapplerItem] *)
Record GrapplerItem : Type := mkItem {
  item_id : string;
  item_graph : GraphDef;
  item_feed : list (string * Tensor);
  item_fetch : list string;
  item_init_ops : list string;
  item_keep_ops : list string
}.


(** The optimizer object: its only data member is [m_config_map]. *)
Record OVTFOptimizer : Type := mkOptimizer {
  m_config_map : gmap string string
}.

(** ** OVTFOptimizer::Init *)

(** One iteration of the loop over [config->parameter_map()]:
    [m_config_map["_ovtf_" + i.first] = i.second.s()]. *)
Definition Init_step (key : string) (v : AttrValue)
    (m : gmap string string) : gmap string string :=
  <["_ovtf_" +:+ key := AttrValue_s v]> m.

Definition Init (self : OVTFOptimizer) (params : gmap string AttrValue)
    : Status * OVTFOptimizer :=
  (OK, mkOptimizer (map_fold Init_step (m_config_map self) params)).

(** ** Traces *)

(** One entry per call that leaves [Optimize], with what the call returned
    where [Optimize] branches on it. *)
Inductive Call : Type :=
| Call_ConvertGraphDefToGraph (s : Status)
| Call_Initialize (s : Status)
| Call_PredictCosts
| Call_FreshIndex (idx : Z)
| Call_IsAlreadyProcessed (b : bool)
| Call_EvictAllClusters
| Call_EvictMRUClusters
| Call_ToGraphDef
| Call_AddIdentityN (names : gset string) (s : Status)
| Call_DumpTFGraph (idx : Z) (stage : string)
| Call_GetBackendName (s : Status)
| Call_MarkSupportedNodes
| Call_AssignClusters (s : Status)
| Call_DeassignClusters (s : Status)
| Call_EncapsulateClusters (idx : Z) (config : gmap string string) (s : Status).

(** How a computation inside [Optimize] ends: it goes on with a value, the
    function returns a [Status], or a C++ exception leaves the function. *)
Inductive Outcome (A : Type) : Type :=
| Next (a : A)
| Return (s : Status)
| Throw (what : string).
Arguments Next {A} a.
Arguments Return {A} s.
Arguments Throw {A} what.

Section Pass.

(** The state of [NGraphClusterManager] (cluster_manager.h is outside this
    translation unit). *)
Context {CM : Type}.

(** What one run can change: the process-wide serial counter, the cluster
    manager and the caller's [GraphDef* output]. *)
Record State : Type := mkState {
  s_serial_counter : Z;
  clusters : CM;
  output : GraphDef
}.

Definition M (A : Type) : Type := State -> Outcome A * State * list Call.

#[local] Instance M_ret : MRet M := fun A a st => (Next a, st, []).

#[local] Instance M_bind : MBind M := fun A B k m st =>
  match m st with
  | (Next a, st', t) =>
      match k a st' with (r, st'', t') => (r, st'', (t ++ t')%list) end
  | (Return s, st', t) => (Return s, st', t)
  | (Throw w, st', t) => (Throw w, st', t)
  end.

Definition emit (c : Call) : M unit := fun st => (Next tt, st, [c]).
Definition return_ {A} (s : Status) : M A := fun st => (Return s, st, []).
Definition throw {A} (what : string) : M A := fun st => (Throw what, st, []).

(** [TF_RETURN_IF_ERROR(s)] *)
Definition TF_RETURN_IF_ERROR (s : Status) : M unit :=
  if ok s then mret tt else return_ s.

(** ** OVTFOptimizer::FreshIndex

<<
  mutex_lock l(s_serial_counter_mutex);
  return s_serial_counter++;
>>
    Runs are sequential here, so taking the lock changes nothing.
    Incrementing an [int] that holds [INT_MAX] is undefined in C++; the
    model wraps, as the target does, and the statements about the counter
    keep below that point. *)
Definition FreshIndex : M Z := fun st =>
  let idx := s_serial_counter st in
  (Next idx,
   mkState (Int.to_int (idx + 1)) (clusters st) (output st),
   [Call_FreshIndex idx]).

(** ** Collaborators of Optimize

    Everything [Optimize] calls outside this file, as a function of the
    arguments the call site passes: the TensorFlow conversions and cost
    estimator, what the process holds while the run lasts (environment,
    API switches, backend name, build flag), the other files of the bridge
    (utilities, cluster manager, [AddIdentityN], the attribute setters and
    the phases after marking) and OCM's node checker.  A function that
    takes [Graph*] returns the graph it leaves behind next to its status. *)

Record Collaborators : Type := mkCollaborators {
  (* TensorFlow *)
  ConvertGraphDefToGraph : GraphDef -> Status * Graph;
  Graph_ToGraphDef : Graph -> GraphDef;
  estimator_Initialize : GrapplerItem -> Status;
  (* the process *)
  getenv : string -> option string;
  api_IsEnabled : bool;
  api_GetDisabledOps : gset string;
  BackendManager_GetBackendName : Status * string;
  OPENVINO_2022_1 : bool;
  (* the bridge *)
  util_IsAlreadyProcessed : Graph -> bool;
  EvictAllClusters : CM -> CM;
  EvictMRUClusters : CM -> CM;
  AddIdentityN : Graph -> gset string -> Status * Graph;
  GetAttributeSetters : gmap string (Node -> Node);
  AssignClusters : Graph -> Status * Graph;
  DeassignClusters : Graph -> Status * Graph;
  EncapsulateClusters : Graph -> Z -> gmap string string -> Status * Graph;
  (* OCM: FrameworkNodesChecker(TF, device_id, ov_version, &graph), after
     SetDisabledOps; device_id is device.c_str() *)
  MarkSupportedNodes : string -> string -> gset string -> Graph -> list nat
}.

Context (E : Collaborators).

(** *** The pieces of Optimize that compute on their own *)

(** Lines 87-96: is the bridge switched off? *)
Definition ovtf_not_enabled : bool :=
  let ovtf_not_enabled :=
    match getenv E "OPENVINO_TF_DISABLE" with
    | None => false
    | Some openvino_tf_disable_env =>
        let env_value := StdString.front openvino_tf_disable_env in
        if Ascii.eqb env_value "1" then true else false
    end in
  negb (api_IsEnabled E) || ovtf_not_enabled.

(** Lines 114-125: feed nodes, keep ops and init ops. *)
Definition nodes_to_preserve_0 (item : GrapplerItem) : gset string :=
  let nodes_to_preserve :=
    foldl (fun acc fd => {[ fst fd ]} ∪ acc) ∅ (item_feed item) in
  let nodes_to_preserve := list_to_set (item_keep_ops item) ∪ nodes_to_preserve in
  list_to_set (item_init_ops item) ∪ nodes_to_preserve.

(** Lines 128-134: names of the nodes whose type is disabled. *)
Definition disabled_nodes (graph : Graph) : gset string :=
  let disabled_ops_set := api_GetDisabledOps E in
  foldl (fun acc itr =>
           if decide (Node_type_string itr ∈ disabled_ops_set)
           then {[ Node_name itr ]} ∪ acc else acc)
        ∅ (graph_nodes graph).

(** Lines 143-148: [fetch_nodes - disabled_nodes]. *)
Definition nodes_to_add_identity_to (item : GrapplerItem) (graph : Graph)
    : gset string :=
  fetch_nodes_of (item_fetch item) ∖ disabled_nodes graph.

(** Lines 157-158: the set once the fetch names are added. *)
Definition nodes_to_preserve (item : GrapplerItem) (graph : Graph)
    : gset string :=
  nodes_to_add_identity_to item graph ∪ nodes_to_preserve_0 item.

(** Lines 197-205: the loop over [nodes_list]. *)
Definition mark_node (node : Node) : Node :=
  let node := Node_AddAttr "_ovtf_marked_for_clustering" (AttrB true) node in
  match GetAttributeSetters E !! Node_type_string node with
  | Some set_attributes => set_attributes node
  | None => node
  end.

Definition mark_nodes (nodes_list : list nat) (graph : Graph) : Graph :=
  foldl (fun g void_node => mkGraph (alter mark_node void_node (graph_nodes g)))
        graph nodes_list.

Definition ov_version : string :=
  if OPENVINO_2022_1 E then "2022.1.0" else "".

(** *** Calls that leave Optimize *)

(** A call whose result [r] is already known, logged as [c]. *)
Definition call {A} (r : A) (c : Call) : M A := fun st => (Next r, st, [c]).

Definition do_ConvertGraphDefToGraph (graph_def : GraphDef) : M (Status * Graph) :=
  let r := ConvertGraphDefToGraph E graph_def in
  call r (Call_ConvertGraphDefToGraph r.1).

Definition do_Initialize (grappler_item : GrapplerItem) : M Status :=
  let r := estimator_Initialize E grappler_item in call r (Call_Initialize r).

Definition do_IsAlreadyProcessed (graph : Graph) : M bool :=
  let r := util_IsAlreadyProcessed E graph in call r (Call_IsAlreadyProcessed r).

Definition do_EvictAllClusters : M unit := fun st =>
  (Next tt,
   mkState (s_serial_counter st) (EvictAllClusters E (clusters st)) (output st),
   [Call_EvictAllClusters]).

Definition do_EvictMRUClusters : M unit := fun st =>
  (Next tt,
   mkState (s_serial_counter st) (EvictMRUClusters E (clusters st)) (output st),
   [Call_EvictMRUClusters]).

(** [graph.ToGraphDef(output)] *)
Definition do_ToGraphDef (graph : Graph) : M unit := fun st =>
  (Next tt,
   mkState (s_serial_counter st) (clusters st) (Graph_ToGraphDef E graph),
   [Call_ToGraphDef]).

Definition do_AddIdentityN (graph : Graph) (names : gset string)
    : M (Status * Graph) :=
  let r := AddIdentityN E graph names in call r (Call_AddIdentityN names r.1).

Definition DumpTFGraph (idx : Z) (stage : string) : M unit :=
  emit (Call_DumpTFGraph idx stage).

Definition do_GetBackendName : M (Status * string) :=
  let r := BackendManager_GetBackendName E in call r (Call_GetBackendName r.1).

Definition do_MarkSupportedNodes (device_id : string) (graph : Graph)
    : M (list nat) :=
  call (MarkSupportedNodes E device_id ov_version (api_GetDisabledOps E) graph)
       Call_MarkSupportedNodes.

Definition do_AssignClusters (graph : Graph) : M (Status * Graph) :=
  let r := AssignClusters E graph in call r (Call_AssignClusters r.1).

Definition do_DeassignClusters (graph : Graph) : M (Status * Graph) :=
  let r := DeassignClusters E graph in call r (Call_DeassignClusters r.1).

Definition do_EncapsulateClusters (graph : Graph) (idx : Z)
    (config : gmap string string) : M (Status * Graph) :=
  let r := EncapsulateClusters E graph idx config in
  call r (Call_EncapsulateClusters idx config r.1).

(** ** OVTFOptimizer::Optimize

    The function line by line.  Left out: the [OVTF_VLOG] lines, which only
    log, and the construction of the cost estimator, whose sole use is
    [Initialize] and [PredictCosts] (the predicted costs are never read,
    and the [Status] that [PredictCosts] returns at line 75 is dropped, as
    is the one an attribute setter returns at line 203: neither can end
    the run).
    [nodes_to_preserve] is computed as in the source and, as in the source,
    nothing after line 158 reads it. *)

Definition Optimize (self : OVTFOptimizer) (item : GrapplerItem) : M unit :=
  let grappler_item := item in
  let graph_def := item_graph grappler_item in
  '(s, graph) ← do_ConvertGraphDefToGraph graph_def;
  TF_RETURN_IF_ERROR s;;
  init_status ← do_Initialize grappler_item;
  (if ok init_status then mret tt else return_ init_status);;
  emit Call_PredictCosts;;
  idx ← FreshIndex;
  let ovtf_not_enabled := ovtf_not_enabled in
  already_processed ← do_IsAlreadyProcessed graph;
  if ovtf_not_enabled || already_processed then
    do_EvictAllClusters;;
    do_EvictMRUClusters;;
    do_ToGraphDef graph;;
    return_ OK
  else
    let nodes_to_preserve := nodes_to_preserve_0 item in
    let nodes_to_add_identity_to := nodes_to_add_identity_to item graph in
    '(s, graph) ← do_AddIdentityN graph nodes_to_add_identity_to;
    TF_RETURN_IF_ERROR s;;
    let nodes_to_preserve := nodes_to_add_identity_to ∪ nodes_to_preserve in
    DumpTFGraph idx "unmarked";;
    '(exec_status, device) ← do_GetBackendName;
    (if ok exec_status then mret tt else throw (error_message exec_status));;
    let device_id := StdString.c_str device in
    nodes_list ← do_MarkSupportedNodes device_id graph;
    let graph := mark_nodes nodes_list graph in
    DumpTFGraph idx "marked";;
    '(s, graph) ← do_AssignClusters graph;
    TF_RETURN_IF_ERROR s;;
    DumpTFGraph idx "clustered";;
    '(s, graph) ← do_DeassignClusters graph;
    TF_RETURN_IF_ERROR s;;
    DumpTFGraph idx "declustered";;
    '(status, graph) ← do_EncapsulateClusters graph idx (m_config_map self);
    (if ok status then mret tt else return_ status);;
    DumpTFGraph idx "encapsulated";;
    do_ToGraphDef graph;;
    return_ OK.

End Pass.

(** ** OVTFGraphIterator (ovtf_graph_iterator.h) *)

Module GraphIterator.

(** [GraphDef::node_size()] returns an [int]. *)
Definition node_size (g : GraphDef) : Z :=
  Int.to_int (Z.of_nat (length (gd_node g))).

(** [&g->node(i)] with [i] converted to the [int] parameter: the address
    of the node, no valid address out of range. *)
Definition node_ptr (g : GraphDef) (i : Z) : option NodeDef :=
  gd_node g !! Z.to_nat (Int.to_int i).

(** A repeated field never holds more than [INT_MAX] elements. *)
Definition GraphDef_wf (g : GraphDef) : Prop :=
  Z.of_nat (length (gd_node g)) <= Int.INT_MAX.

(** [OVTFDecoder] keeps the [const NodeDef*] it is built from. *)
Record OVTFDecoder : Type := mkDecoder { m_node_def : option NodeDef }.

(** The data members.  A [const NodeDef*] is [Some] node it points to, or
    [None] for the null pointer; [node_index] is a [size_t]. *)
Record OVTFGraphIterator : Type := mkIterator {
  m_nodes : list (option NodeDef);
  node_index : Z;
  m_graph_def : GraphDef
}.

(** The constructor:
<<
  m_nodes.resize(m_graph_def->node_size());
  for (size_t i = 0; i < m_nodes.size(); ++i)
      m_nodes[i] = &m_graph_def->node(i);
>> *)
Definition fill_nodes (g : GraphDef) (m_nodes : list (option NodeDef))
    : list (option NodeDef) :=
  foldl (fun v i => <[i := node_ptr g (Z.of_nat i)]> v)
        m_nodes (seq 0 (length m_nodes)).

Definition make (graph_def : GraphDef) : OVTFGraphIterator :=
  let m_nodes := replicate (Z.to_nat (Int.to_size_t (node_size graph_def))) None in
  mkIterator (fill_nodes graph_def m_nodes) 0 graph_def.

Definition reset (it : OVTFGraphIterator) : OVTFGraphIterator :=
  mkIterator (m_nodes it) 0 (m_graph_def it).

Definition size (it : OVTFGraphIterator) : Z :=
  Z.of_nat (length (m_nodes it)).

Definition next (it : OVTFGraphIterator) : OVTFGraphIterator :=
  mkIterator (m_nodes it) (Int.to_size_t (node_index it + 1)) (m_graph_def it).

Definition is_end (it : OVTFGraphIterator) : bool :=
  (size it <=? node_index it)%Z.

(** [get_decoder()]: [m_nodes[node_index]] has no defined value out of
    range, hence the [option]. *)
Definition get_decoder (it : OVTFGraphIterator) : option OVTFDecoder :=
  mkDecoder <$> m_nodes it !! Z.to_nat (node_index it).

(** A client loop [for (it.reset(); !it.is_end(); it.next())] collecting
    [it.get_decoder()], run for at most [fuel] rounds. *)
Fixpoint collect (fuel : nat) (it : OVTFGraphIterator)
    : option (list OVTFDecoder) :=
  if is_end it then Some []
  else match fuel with
       | O => None
       | S fuel' =>
           d ← get_decoder it;
           ds ← collect fuel' (next it);
           Some (d :: ds)
       end.

Definition traverse (fuel : nat) (it : OVTFGraphIterator)
    : option (list OVTFDecoder) :=
  collect fuel (reset it).

End GraphIterator.

(** ** The runs of Optimize, case by case

    [Optimize] is straight-line code with early exits, so a run is one of
    ten shapes.  [Run] lists them with the state and the trace each one
    leaves; it is shown below to describe exactly the function above. *)

Section Runs.

Context {CM : Type} (E : @Collaborators CM).

Definition Result : Type := Outcome unit * @State CM * list Call.

(** The state once [FreshIndex] has run. *)
Definition after_FreshIndex (st : @State CM) : State :=
  mkState (Int.to_int (s_serial_counter st + 1)) (clusters st) (output st).

(** The state a soft skip leaves. *)
Definition after_skip (graph : Graph) (st : @State CM) : State :=
  mkState (Int.to_int (s_serial_counter st + 1))
          (EvictMRUClusters E (EvictAllClusters E (clusters st)))
          (Graph_ToGraphDef E graph).

(** The state a complete rewrite leaves. *)
Definition after_rewrite (graph : Graph) (st : @State CM) : State :=
  mkState (Int.to_int (s_serial_counter st + 1)) (clusters st)
          (Graph_ToGraphDef E graph).

(** Traces, stage by stage. *)
Definition t_gate (idx : Z) (b : bool) : list Call :=
  [Call_ConvertGraphDefToGraph OK; Call_Initialize OK; Call_PredictCosts;
   Call_FreshIndex idx; Call_IsAlreadyProcessed b].

Definition t_skip (idx : Z) (b : bool) : list Call :=
  (t_gate idx b ++
   [Call_EvictAllClusters; Call_EvictMRUClusters; Call_ToGraphDef])%list.

Definition t_identity (idx : Z) (names : gset string) (s : Status) : list Call :=
  (t_gate idx false ++ [Call_AddIdentityN names s])%list.

Definition t_backend (idx : Z) (names : gset string) (s : Status) : list Call :=
  (t_identity idx names OK ++
   [Call_DumpTFGraph idx "unmarked"; Call_GetBackendName s])%list.

Definition t_assign (idx : Z) (names : gset string) (s : Status) : list Call :=
  (t_backend idx names OK ++
   [Call_MarkSupportedNodes; Call_DumpTFGraph idx "marked";
    Call_AssignClusters s])%list.

Definition t_deassign (idx : Z) (names : gset string) (s : Status) : list Call :=
  (t_assign idx names OK ++
   [Call_DumpTFGraph idx "clustered"; Call_DeassignClusters s])%list.

Definition t_encapsulate (idx : Z) (names : gset string)
    (config : gmap string string) (s : Status) : list Call :=
  (t_deassign idx names OK ++
   [Call_DumpTFGraph idx "declustered";
    Call_EncapsulateClusters idx config s])%list.

Definition t_success (idx : Z) (names : gset string)
    (config : gmap string string) : list Call :=
  (t_encapsulate idx names config OK ++
   [Call_DumpTFGraph idx "encapsulated"; Call_ToGraphDef])%list.

(** Control reaches line 97 with the in-memory [graph]: the conversion and
    the initialisation of the cost estimator both succeeded. *)
Definition reaches_gate (item : GrapplerItem) (graph : Graph) : Prop :=
  ConvertGraphDefToGraph E (item_graph item) = (OK, graph) /\
  estimator_Initialize E item = OK.

(** Control passes line 109 and the rewrite starts. *)
Definition enters_rewrite (item : GrapplerItem) (graph : Graph) : Prop :=
  reaches_gate item graph /\
  ovtf_not_enabled E = false /\
  util_IsAlreadyProcessed E graph = false.

(** The graph handed to [AssignClusters]: [AddIdentityN] succeeded on
    [graph], the backend name is known and the supported nodes of the
    result are marked. *)
Definition marked_graph (item : GrapplerItem) (graph marked : Graph) : Prop :=
  exists graph1 device,
    AddIdentityN E graph (nodes_to_add_identity_to E item graph) = (OK, graph1) /\
    BackendManager_GetBackendName E = (OK, device) /\
    marked =
      mark_nodes E
        (MarkSupportedNodes E (StdString.c_str device) (ov_version E)
           (api_GetDisabledOps E) graph1)
        graph1.


(** The environment asks for the bridge to be off, as lines 88-95 read it. *)
Definition disabled_by_env : Prop :=
  exists v, getenv E "OPENVINO_TF_DISABLE" = Some v /\
            StdString.front v = "1"%char.

(** Pass-through mode: success, the caller's output is the [GraphDef] of
    the converted input, both eviction routines have run on the cluster
    manager and no call of the rewrite was made. *)
Definition passes_through (item : GrapplerItem) (graph : Graph)
    (st : State) (x : Result) : Prop :=
  x = (Return OK, after_skip graph st,
       t_skip (s_serial_counter st) (util_IsAlreadyProcessed E graph)).

Inductive Run (self : OVTFOptimizer) (item : GrapplerItem) (st : State)
  : Result -> Prop :=
| Run_convert_failed s graph :
    ConvertGraphDefToGraph E (item_graph item) = (s, graph) ->
    ok s = false ->
    Run self item st (Return s, st, [Call_ConvertGraphDefToGraph s])
| Run_estimator_failed graph s :
    ConvertGraphDefToGraph E (item_graph item) = (OK, graph) ->
    estimator_Initialize E item = s ->
    ok s = false ->
    Run self item st
      (Return s, st, [Call_ConvertGraphDefToGraph OK; Call_Initialize s])
| Run_soft_skip graph b :
    reaches_gate item graph ->
    util_IsAlreadyProcessed E graph = b ->
    ovtf_not_enabled E || b = true ->
    Run self item st
      (Return OK, after_skip graph st, t_skip (s_serial_counter st) b)
| Run_identity_failed graph s graph1 :
    enters_rewrite item graph ->
    AddIdentityN E graph (nodes_to_add_identity_to E item graph) = (s, graph1) ->
    ok s = false ->
    Run self item st
      (Return s, after_FreshIndex st,
       t_identity (s_serial_counter st) (nodes_to_add_identity_to E item graph) s)
| Run_backend_failed graph graph1 s device :
    enters_rewrite item graph ->
    AddIdentityN E graph (nodes_to_add_identity_to E item graph) = (OK, graph1) ->
    BackendManager_GetBackendName E = (s, device) ->
    ok s = false ->
    Run self item st
      (Throw (error_message s), after_FreshIndex st,
       t_backend (s_serial_counter st) (nodes_to_add_identity_to E item graph) s)
| Run_assign_failed graph graph2 s graph3 :
    enters_rewrite item graph ->
    marked_graph item graph graph2 ->
    AssignClusters E graph2 = (s, graph3) ->
    ok s = false ->
    Run self item st
      (Return s, after_FreshIndex st,
       t_assign (s_serial_counter st) (nodes_to_add_identity_to E item graph) s)
| Run_deassign_failed graph graph2 graph3 s graph4 :
    enters_rewrite item graph ->
    marked_graph item graph graph2 ->
    AssignClusters E graph2 = (OK, graph3) ->
    DeassignClusters E graph3 = (s, graph4) ->
    ok s = false ->
    Run self item st
      (Return s, after_FreshIndex st,
       t_deassign (s_serial_counter st) (nodes_to_add_identity_to E item graph) s)
| Run_encapsulate_failed graph graph2 graph3 graph4 s graph5 :
    enters_rewrite item graph ->
    marked_graph item graph graph2 ->
    AssignClusters E graph2 = (OK, graph3) ->
    DeassignClusters E graph3 = (OK, graph4) ->
    EncapsulateClusters E graph4 (s_serial_counter st) (m_config_map self)
      = (s, graph5) ->
    ok s = false ->
    Run self item st
      (Return s, after_FreshIndex st,
       t_encapsulate (s_serial_counter st)
         (nodes_to_add_identity_to E item graph) (m_config_map self) s)
| Run_success graph graph2 graph3 graph4 graph5 :
    enters_rewrite item graph ->
    marked_graph item graph graph2 ->
    AssignClusters E graph2 = (OK, graph3) ->
    DeassignClusters E graph3 = (OK, graph4) ->
    EncapsulateClusters E graph4 (s_serial_counter st) (m_config_map self)
      = (OK, graph5) ->
    Run self item st
      (Return OK, after_rewrite graph5 st,
       t_success (s_serial_counter st)
         (nodes_to_add_identity_to E item graph) (m_config_map self)).

End Runs.

(** ** Stages of the pipeline, as read off a trace *)





Definition is_phase (c : Call) : bool :=
  match c with
  | Call_MarkSupportedNodes | Call_AssignClusters _
  | Call_DeassignClusters _ | Call_EncapsulateClusters _ _ _ => true
  | _ => false
  end.

Definition is_GetBackendName (c : Call) : bool :=
  match c with Call_GetBackendName _ => true | _ => false end.

(** [n] successive calls of [FreshIndex], with the values they return. *)
Fixpoint FreshIndex_times {CM : Type} (n : nat) (st : @State CM)
    : list Z * State :=
  match n with
  | O => ([], st)
  | S n' =>
      match FreshIndex st with
      | (Next idx, st', _) =>
          let '(rest, st'') := FreshIndex_times n' st' in (idx :: rest, st'')
      | (_, st', _) => ([], st')
      end
  end.

(** ** A small instance of the collaborators

    Used to run the model on concrete inputs: conversions that keep the
    node list, an oracle that supports every type that is not disabled, an
    assigner that puts every marked node in cluster 0 and an encapsulator
    that fuses the labelled nodes into one node. *)

Module Demo.

Definition CM : Type := list string.

Fixpoint supported_from (disabled : gset string) (i : nat) (nodes : list Node)
    : list nat :=
  match nodes with
  | [] => []
  | n :: rest =>
      if decide (nd_op n ∈ disabled) then supported_from disabled (S i) rest
      else i :: supported_from disabled (S i) rest
  end.

Definition has_attr (key : string) (n : Node) : bool :=
  match nd_attr n !! key with Some _ => true | None => false end.

Definition assign (g : Graph) : Graph :=
  mkGraph
    ((fun n => if has_attr "_ovtf_marked_for_clustering" n
               then Node_AddAttr "_ovtf_cluster" (AttrI 0) n else n)
       <$> graph_nodes g).

Definition fused (idx : Z) (config : gmap string string) (members : list Node)
    : Node :=
  mkNodeDef "ovtf_cluster_0" "_nGraphEncapsulate" (nd_name <$> members)
            (<["ovtf_cluster" := AttrI idx]> (AttrS <$> config)).

Definition encapsulate (g : Graph) (idx : Z) (config : gmap string string)
    : Graph :=
  let members := List.filter (has_attr "_ovtf_cluster") (graph_nodes g) in
  let others :=
    List.filter (fun n => negb (has_attr "_ovtf_cluster" n)) (graph_nodes g) in
  match members with
  | [] => g
  | _ => mkGraph (others ++ [fused idx config members])
  end.

Definition is_processed (g : Graph) : bool :=
  existsb (fun n => String.eqb (nd_op n) "_nGraphEncapsulate") (graph_nodes g).

Definition collaborators (env : option string) (enabled : bool)
    (backend encapsulation : Status) : @Collaborators CM :=
  {| ConvertGraphDefToGraph := fun gd => (OK, mkGraph (gd_node gd));
     Graph_ToGraphDef := fun g => mkGraphDef (graph_nodes g);
     estimator_Initialize := fun _ => OK;
     getenv := fun name =>
       if String.eqb name "OPENVINO_TF_DISABLE" then env else None;
     api_IsEnabled := enabled;
     api_GetDisabledOps := {[ "NoOp" ]};
     BackendManager_GetBackendName := (backend, "CPU");
     OPENVINO_2022_1 := true;
     util_IsAlreadyProcessed := is_processed;
     EvictAllClusters := fun _ => [];
     EvictMRUClusters := fun cm => cm;
     AddIdentityN := fun g _ => (OK, g);
     GetAttributeSetters := ∅;
     AssignClusters := fun g => (OK, assign g);
     DeassignClusters := fun g => (OK, g);
     EncapsulateClusters := fun g idx config =>
       (encapsulation, encapsulate g idx config);
     MarkSupportedNodes := fun _ _ disabled g =>
       supported_from disabled 0 (graph_nodes g) |}.

(** The defaults: nothing disabled, every call succeeds. *)
Definition plain : @Collaborators CM := collaborators None true OK OK.

Definition x_relu : NodeDef := mkNodeDef "x" "Relu" [] ∅.

Definition graph_x : GraphDef := mkGraphDef [x_relu].

Definition item_x (feed : list (string * Tensor)) (fetch : list string)
    : GrapplerItem :=
  mkItem "demo" graph_x feed fetch [] [].

Definition st0 : @State CM := mkState 0 ["cached"] (mkGraphDef []).

Definition self0 : OVTFOptimizer := mkOptimizer ∅.

End Demo.

(** ** A second instance: a backend that supports nothing

    As the demo above, except that the oracle lists no node, the cost
    estimator returns the status it is given, and [AddIdentityN] appends to
    the graph one [IdentityN] node per name it receives. *)

Module DemoBare.

Definition identity_node (name : string) : Node :=
  mkNodeDef (name +:+ "_identity") "IdentityN" [name] ∅.

Definition add_identity (g : Graph) (names : gset string) : Graph :=
  mkGraph (graph_nodes g ++ (identity_node <$> elements names)).

Definition collaborators (estimator : Status) : @Collaborators Demo.CM :=
  {| ConvertGraphDefToGraph := fun gd => (OK, mkGraph (gd_node gd));
     Graph_ToGraphDef := fun g => mkGraphDef (graph_nodes g);
     estimator_Initialize := fun _ => estimator;
     getenv := fun _ => None;
     api_IsEnabled := true;
     api_GetDisabledOps := ∅;
     BackendManager_GetBackendName := (OK, "CPU");
     OPENVINO_2022_1 := true;
     util_IsAlreadyProcessed := Demo.is_processed;
     EvictAllClusters := fun _ => [];
     EvictMRUClusters := fun cm => cm;
     AddIdentityN := fun g names => (OK, add_identity g names);
     GetAttributeSetters := ∅;
     AssignClusters := fun g => (OK, Demo.assign g);
     DeassignClusters := fun g => (OK, g);
     EncapsulateClusters := fun g idx config =>
       (OK, Demo.encapsulate g idx config);
     MarkSupportedNodes := fun _ _ _ _ => [] |}.


End DemoBare.

(** ** Further readings of a trace *)

(** The status a call handed back, for the calls whose status [Optimize]
    inspects (lines 60, 71, 155, 179, 209, 213 and 218).  [PredictCosts]
    and the attribute setters also return a [Status], which the source
    drops; they are not among them. *)
Definition checked_status (c : Call) : option Status :=
  match c with
  | Call_ConvertGraphDefToGraph s | Call_Initialize s
  | Call_AddIdentityN _ s | Call_GetBackendName s
  | Call_AssignClusters s | Call_DeassignClusters s
  | Call_EncapsulateClusters _ _ s => Some s
  | _ => None
  end.

Definition is_FreshIndex (c : Call) : bool :=
  match c with Call_FreshIndex _ => true | _ => false end.

(** ** Sequences of calls on an iterator *)

Module IteratorOps.

Inductive Op : Type := op_reset | op_next.

Definition step (it : GraphIterator.OVTFGraphIterator) (o : Op)
    : GraphIterator.OVTFGraphIterator :=
  match o with
  | op_reset => GraphIterator.reset it
  | op_next => GraphIterator.next it
  end.

(** The calls of [ops], first to last, on [it]. *)
Definition run (ops : list Op) (it : GraphIterator.OVTFGraphIterator)
    : GraphIterator.OVTFGraphIterator :=
  foldl step it ops.

End IteratorOps.

(** * Properties *)

(** ** [Run] describes [Optimize] *)

Lemma ok_true (s : Status) : ok s = true <-> s = OK.
Proof. destruct s; simpl; split; congruence. Qed.

Lemma ok_false_Error (c : Z) (m : string) : ok (Error c m) = false.
Proof. reflexivity. Qed.

#[local] Hint Resolve ok_false_Error : core.

Section RunFacts.

Context {CM : Type} (E : @Collaborators CM).

(** Unfold one run of [Optimize] in the goal and compute it as far as the
    equations in the context decide the calls. *)
Ltac unfold_Optimize :=
  unfold Optimize, mbind, M_bind, mret, M_ret, do_ConvertGraphDefToGraph,
    do_Initialize, do_IsAlreadyProcessed, do_EvictAllClusters,
    do_EvictMRUClusters, do_ToGraphDef, do_AddIdentityN, DumpTFGraph,
    do_GetBackendName, do_MarkSupportedNodes, do_AssignClusters,
    do_DeassignClusters, do_EncapsulateClusters, call, emit,
    TF_RETURN_IF_ERROR, return_, throw, FreshIndex.

Ltac compute_run :=
  cbn -[ovtf_not_enabled nodes_to_add_identity_to mark_nodes ov_version
        Int.to_int].

Ltac eval_Optimize :=
  unfold_Optimize; compute_run;
  repeat (match goal with Heq : _ = _ |- _ => rewrite Heq end; compute_run).

Lemma Optimize_Run (self : OVTFOptimizer) (item : GrapplerItem) (st : State) :
  Run E self item st (Optimize E self item st).
Proof.
  destruct (ConvertGraphDefToGraph E (item_graph item))
    as [[|c0 m0] g] eqn:Hconv.
  2:{ eval_Optimize. eapply Run_convert_failed; eauto. }
  destruct (estimator_Initialize E item) as [|c1 m1] eqn:Hinit.
  2:{ eval_Optimize. eapply Run_estimator_failed; eauto. }
  assert (Hgate : reaches_gate E item g) by (split; assumption).
  destruct (util_IsAlreadyProcessed E g) eqn:Hproc.
  { destruct (ovtf_not_enabled E) eqn:Hoff; eval_Optimize;
      apply (Run_soft_skip E self item st g true); auto; rewrite Hoff; auto. }
  destruct (ovtf_not_enabled E) eqn:Hoff.
  { eval_Optimize.
    apply (Run_soft_skip E self item st g false); auto; rewrite Hoff; auto. }
  assert (Henter : enters_rewrite E item g) by (repeat split; tauto).
  destruct (AddIdentityN E g (nodes_to_add_identity_to E item g))
    as [[|c2 m2] g1] eqn:Hid.
  2:{ eval_Optimize. eapply Run_identity_failed; eauto. }
  destruct (BackendManager_GetBackendName E) as [[|c3 m3] device] eqn:Hbe.
  2:{ eval_Optimize.
      apply (Run_backend_failed E self item st g g1 (Error c3 m3) device); auto. }
  set (g2 := mark_nodes E
               (MarkSupportedNodes E (StdString.c_str device) (ov_version E)
                  (api_GetDisabledOps E) g1) g1).
  assert (Hmark : marked_graph E item g g2) by (exists g1, device; auto).
  destruct (AssignClusters E g2) as [[|c4 m4] g3] eqn:Hassign; subst g2.
  2:{ eval_Optimize. eapply Run_assign_failed; eauto. }
  destruct (DeassignClusters E g3) as [[|c5 m5] g4] eqn:Hde.
  2:{ eval_Optimize. eapply Run_deassign_failed; eauto. }
  destruct (EncapsulateClusters E g4 (s_serial_counter st) (m_config_map self))
    as [[|c6 m6] g5] eqn:Hen.
  2:{ eval_Optimize. eapply Run_encapsulate_failed; eauto. }
  eval_Optimize. eapply Run_success; eauto.
Qed.

Lemma Run_Optimize (self : OVTFOptimizer) (item : GrapplerItem) (st : State)
    (x : Result) :
  Run E self item st x -> Optimize E self item st = x.
Proof.
  intros HR.
  destruct HR;
    repeat match goal with
      | H : enters_rewrite _ _ _ |- _ => destruct H as [[? ?] [? ?]]
      | H : reaches_gate _ _ _ |- _ => destruct H as [? ?]
      | H : marked_graph _ _ _ _ |- _ => destruct H as (? & ? & ? & ? & ->)
      | H : ok ?s = false |- _ => destruct s; [discriminate H | clear H]
      | H : (ovtf_not_enabled E || ?b)%bool = true |- _ =>
          destruct (ovtf_not_enabled E) eqn:?; destruct b eqn:?;
          try discriminate H; clear H
      end;
    subst; eval_Optimize; reflexivity.
Qed.

Lemma Optimize_iff_Run self item st x :
  Optimize E self item st = x <-> Run E self item st x.
Proof.
  split; [intros <-; apply Optimize_Run | apply Run_Optimize].
Qed.

End RunFacts.

(** ** Reading traces *)

(** Split a membership in an explicit trace into its cases. *)
Ltac in_trace H :=
  unfold t_success, t_encapsulate, t_deassign, t_assign, t_backend,
    t_identity, t_skip, t_gate in H;
  simpl in H;
  repeat (destruct H as [H | H]; [try discriminate H | ]);
  try contradiction.

Ltac not_in_trace :=
  let H := fresh in
  intros H; in_trace H.

Lemma result_eta {A B C : Type} (x : A * B * C) : x = (x.1.1, x.1.2, x.2).
Proof. destruct x as [[? ?] ?]; reflexivity. Qed.

Section Failures.

Context {CM : Type} (E : @Collaborators CM).

(** C4: when the encapsulation phase returns an error status, [Optimize]
    returns that very status, the caller's output [GraphDef] keeps the value
    it had on entry, and [ToGraphDef] is never called: no partially
    rewritten graph reaches the caller. *)
Theorem Optimize_encapsulation_failure
    (self : OVTFOptimizer) (item : GrapplerItem) (st st' : State)
    (r : Outcome unit) (t : list Call)
    (idx : Z) (config : gmap string string) (s : Status) :
  Optimize E self item st = (r, st', t) ->
  In (Call_EncapsulateClusters idx config s) t ->
  ok s = false ->
  r = Return s /\ output st' = output st /\ ~ In Call_ToGraphDef t.
Proof.
  intros Hrun Hin Hs.
  apply Optimize_iff_Run in Hrun.
  inversion Hrun; subst; clear Hrun; in_trace Hin.
  - injection Hin as <- <- <-.
    repeat split; try reflexivity. not_in_trace.
  - injection Hin as <- <- <-. discriminate Hs.
Qed.

(** C5, as the code has it: when [BackendManager::GetBackendName] returns
    a status that is not OK, [Optimize] does not return that status: it
    ends by throwing an exception that carries the message of the status
    and nothing else of it (the error code is lost).  The query is the
    last call of the run and was made once (no retry), no clustering phase
    has run, and the output is not written. *)
Theorem Optimize_backend_failure
    (self : OVTFOptimizer) (item : GrapplerItem) (st st' : State)
    (r : Outcome unit) (t : list Call) (s : Status) :
  Optimize E self item st = (r, st', t) ->
  In (Call_GetBackendName s) t ->
  ok s = false ->
  r = Throw (error_message s) /\
  (exists t0,
     t = (t0 ++ [Call_GetBackendName s])%list /\
     Forall (fun c => is_phase c = false /\ is_GetBackendName c = false) t0) /\
  output st' = output st.
Proof.
  intros Hrun Hin Hs.
  apply Optimize_iff_Run in Hrun.
  inversion Hrun; subst; clear Hrun; in_trace Hin;
    injection Hin as <-; try discriminate Hs.
  split; [reflexivity | split; [ | reflexivity]].
  exists (t_identity (s_serial_counter st)
            (nodes_to_add_identity_to E item graph) OK ++
          [Call_DumpTFGraph (s_serial_counter st) "unmarked"])%list.
  split; [reflexivity | ].
  repeat constructor.
Qed.

End Failures.

(** The encapsulator of the demo reports a dangling edge. *)
Lemma Optimize_encapsulation_failure_witness :
  let E := Demo.collaborators None true OK (Error 3 "dangling edge") in
  let x := Optimize E Demo.self0 (Demo.item_x [] []) Demo.st0 in
  x.1.1 = Return (Error 3 "dangling edge") /\
  output x.1.2 = output Demo.st0 /\
  ~ In Call_ToGraphDef x.2.
Proof.
  intros E x.
  apply (Optimize_encapsulation_failure E Demo.self0 (Demo.item_x [] [])
           Demo.st0 x.1.2 x.1.1 x.2 0 ∅ (Error 3 "dangling edge")).
  - apply result_eta.
  - vm_compute. tauto.
  - reflexivity.
Defined.

(** C5 as stated fails: the status is not what reaches the caller.  Two
    backend statuses with different codes and the same message end the run
    in the same way, by an exception with that message, and no status is
    returned. *)
Lemma Optimize_backend_status_not_surfaced :
  let s13 := Error 13 "no backend" in
  let s5 := Error 5 "no backend" in
  let x13 := Optimize (Demo.collaborators None true s13 OK) Demo.self0
               (Demo.item_x [] []) Demo.st0 in
  let x5 := Optimize (Demo.collaborators None true s5 OK) Demo.self0
              (Demo.item_x [] []) Demo.st0 in
  s13 <> s5 /\
  x13.1.1 = Throw "no backend" /\
  x5.1.1 = Throw "no backend" /\
  x13.1.1 <> Return s13.
Proof.
  intros s13 s5 x13 x5.
  split; [discriminate | ].
  split; [vm_compute; reflexivity | ].
  split; [vm_compute; reflexivity | ].
  vm_compute. discriminate.
Qed.

(** The backend manager of the demo cannot name the device. *)
Lemma Optimize_backend_failure_witness :
  let E := Demo.collaborators None true (Error 13 "no backend") OK in
  let x := Optimize E Demo.self0 (Demo.item_x [] []) Demo.st0 in
  x.1.1 = Throw "no backend" /\
  (exists t0,
     x.2 = (t0 ++ [Call_GetBackendName (Error 13 "no backend")])%list /\
     Forall (fun c => is_phase c = false /\ is_GetBackendName c = false) t0) /\
  output x.1.2 = output Demo.st0.
Proof.
  intros E x.
  apply (Optimize_backend_failure E Demo.self0 (Demo.item_x [] [])
           Demo.st0 x.1.2 x.1.1 x.2 (Error 13 "no backend")).
  - apply result_eta.
  - vm_compute. tauto.
  - reflexivity.
Defined.

Section Pipeline.

Context {CM : Type} (E : @Collaborators CM).



End Pipeline.


Section SoftSkip.

Context {CM : Type} (E : @Collaborators CM).

Lemma ovtf_not_enabled_iff :
  ovtf_not_enabled E = true <-> disabled_by_env E \/ api_IsEnabled E = false.
Proof.
  unfold ovtf_not_enabled, disabled_by_env.
  destruct (api_IsEnabled E); simpl;
    destruct (getenv E "OPENVINO_TF_DISABLE") as [v|]; simpl.
  - destruct (Ascii.eqb_spec (StdString.front v) "1"%char) as [Heq|Hne].
    + split; [intros _; left; eauto | reflexivity].
    + split; [discriminate | ].
      intros [(v' & [= <-] & H) | H]; [contradiction | discriminate].
  - split; [discriminate | ].
    intros [(v' & H & _) | H]; discriminate.
  - split; [intros _; right; reflexivity | reflexivity].
  - split; [intros _; right; reflexivity | reflexivity].
Qed.

Lemma soft_skip_run (self : OVTFOptimizer) (item : GrapplerItem)
    (graph : Graph) (st : State) :
  reaches_gate E item graph ->
  ovtf_not_enabled E || util_IsAlreadyProcessed E graph = true ->
  passes_through E item graph st (Optimize E self item st).
Proof.
  intros Hgate Hskip. unfold passes_through.
  apply Run_Optimize. apply Run_soft_skip; auto.
Qed.






(** C3, as the code has it: once the conversion and the cost estimator
    have succeeded, [Optimize] enters pass-through mode when
    OPENVINO_TF_DISABLE is set to "1"; and it enters pass-through mode
    exactly when the variable is set to a value whose first character is
    '1', or the API is disabled, or the graph is already processed.  So,
    the API being enabled and the graph not processed, it does so for no
    set value that starts with another character. *)
Theorem Optimize_pass_through_iff
    (self : OVTFOptimizer) (item : GrapplerItem) (graph : Graph) (st : State) :
  reaches_gate E item graph ->
  (getenv E "OPENVINO_TF_DISABLE" = Some "1" ->
   passes_through E item graph st (Optimize E self item st)) /\
  (passes_through E item graph st (Optimize E self item st) <->
   disabled_by_env E \/ api_IsEnabled E = false \/
   util_IsAlreadyProcessed E graph = true).
Proof.
  intros Hgate.
  assert (Hiff : ovtf_not_enabled E || util_IsAlreadyProcessed E graph = true
                 <-> disabled_by_env E \/ api_IsEnabled E = false \/
                     util_IsAlreadyProcessed E graph = true).
  { rewrite orb_true_iff, ovtf_not_enabled_iff. tauto. }
  split.
  - intros Henv. apply soft_skip_run; [assumption | ].
    apply Hiff. left. exists "1". split; [assumption | reflexivity].
  - split.
    + intros Hpass. apply Hiff.
      destruct (ovtf_not_enabled E || util_IsAlreadyProcessed E graph)
        eqn:Hskip; [reflexivity | exfalso].
      apply orb_false_iff in Hskip as [Hoff Hproc].
      unfold passes_through in Hpass. apply Optimize_iff_Run in Hpass.
      destruct Hgate as [Hconv Hinit].
      inversion Hpass; subst; clear Hpass;
        repeat match goal with
          | H : reaches_gate _ _ _ |- _ => destruct H as [? ?]
          | H1 : ?a = _, H2 : ?a = _ |- _ =>
              rewrite H1 in H2; inversion H2; subst; clear H2
          end.
      rewrite Hoff, Hproc in *. discriminate.
    + intros H. apply soft_skip_run; [assumption | apply Hiff, H].
Qed.

End SoftSkip.



(** OPENVINO_TF_DISABLE=1 in the demo. *)
Lemma Optimize_pass_through_iff_witness :
  let E := Demo.collaborators (Some "1") true OK OK in
  passes_through E (Demo.item_x [] []) (mkGraph [Demo.x_relu]) Demo.st0
    (Optimize E Demo.self0 (Demo.item_x [] []) Demo.st0).
Proof.
  intros E.
  apply (proj1 (Optimize_pass_through_iff E Demo.self0 (Demo.item_x [] [])
                  (mkGraph [Demo.x_relu]) Demo.st0
                  (conj eq_refl eq_refl))).
  reflexivity.
Defined.

(** C3 as stated fails: with OPENVINO_TF_DISABLE=10, which is not the
    literal "1", the API enabled and a graph that is not processed yet, the
    pass is in pass-through mode all the same. *)
Lemma Optimize_pass_through_on_10 :
  let E := Demo.collaborators (Some "10") true OK OK in
  let item := Demo.item_x [] [] in
  let graph := mkGraph [Demo.x_relu] in
  getenv E "OPENVINO_TF_DISABLE" = Some "10" /\
  "10" <> "1" /\
  api_IsEnabled E = true /\
  reaches_gate E item graph /\
  util_IsAlreadyProcessed E graph = false /\
  passes_through E item graph Demo.st0 (Optimize E Demo.self0 item Demo.st0).
Proof.
  intros E item graph.
  split; [reflexivity | ].
  split; [discriminate | ].
  split; [reflexivity | ].
  split; [split; reflexivity | ].
  split; [reflexivity | ].
  vm_compute. reflexivity.
Qed.

Section Protected.

Context {CM : Type} (E : @Collaborators CM).

Lemma foldl_insert_fst (l : list (string * Tensor)) (acc : gset string) :
  foldl (fun acc fd => {[ fst fd ]} ∪ acc) acc l = list_to_set (fst <$> l) ∪ acc.
Proof.
  revert acc. induction l as [|fd l IH]; intros acc; simpl.
  - set_solver.
  - rewrite IH. set_solver.
Qed.

Lemma nodes_to_preserve_0_spec (item : GrapplerItem) (x : string) :
  x ∈ nodes_to_preserve_0 item <->
  x ∈ (fst <$> item_feed item) \/ x ∈ item_keep_ops item \/
  x ∈ item_init_ops item.
Proof.
  unfold nodes_to_preserve_0. rewrite foldl_insert_fst. set_solver.
Qed.

(** C1, what the code does: [Optimize] collects every feed name, keep-op
    and init-op (and the fetch names that are not disabled) in
    [nodes_to_preserve], and then never reads the set.  A run with one
    list of feeds, keep-ops and init-ops is the run with any other list:
    same outcome, same state, same calls, whatever the collaborators are,
    provided the cost estimator initialises alike on both items. *)
Theorem Optimize_ignores_nodes_to_preserve
    (self : OVTFOptimizer) (id : string) (graph_def : GraphDef)
    (fetch : list string)
    (feed1 feed2 : list (string * Tensor))
    (init1 init2 keep1 keep2 : list string) (st : State) :
  let item1 := mkItem id graph_def feed1 fetch init1 keep1 in
  let item2 := mkItem id graph_def feed2 fetch init2 keep2 in
  estimator_Initialize E item1 = estimator_Initialize E item2 ->
  (forall graph x,
     x ∈ (fst <$> feed1) \/ x ∈ keep1 \/ x ∈ init1 ->
     x ∈ nodes_to_preserve E item1 graph) /\
  Optimize E self item1 st = Optimize E self item2 st.
Proof.
  intros item1 item2 Hest. split.
  - intros graph x Hx. unfold nodes_to_preserve.
    apply elem_of_union_r. apply nodes_to_preserve_0_spec. exact Hx.
  - unfold Optimize, do_Initialize. cbn - [mbind]. rewrite Hest. reflexivity.
Qed.

End Protected.

(** In the demo, declaring [x] a feed changes nothing in the run. *)
Lemma Optimize_ignores_nodes_to_preserve_witness :
  (forall graph x,
     x ∈ (fst <$> [("x", [] : Tensor)]) \/ x ∈ @nil string \/ x ∈ @nil string ->
     x ∈ nodes_to_preserve Demo.plain (Demo.item_x [("x", [])] []) graph) /\
  Optimize Demo.plain Demo.self0 (Demo.item_x [("x", [])] []) Demo.st0 =
  Optimize Demo.plain Demo.self0 (Demo.item_x [] []) Demo.st0.
Proof.
  apply (Optimize_ignores_nodes_to_preserve Demo.plain Demo.self0 "demo"
           Demo.graph_x [] [("x", [])] [] [] [] [] [] Demo.st0).
  reflexivity.
Defined.

(** The demo run with [x] declared a feed: [x] is in [nodes_to_preserve]
    and ends up inside the one fused node of the output. *)
Lemma Demo_feed_node_is_fused :
  let item := Demo.item_x [("x", [])] [] in
  let x := Optimize Demo.plain Demo.self0 item Demo.st0 in
  "x" ∈ nodes_to_preserve Demo.plain item (mkGraph [Demo.x_relu]) /\
  (fun nd => (nd_op nd, nd_input nd)) <$> gd_node (output x.1.2)
    = [("_nGraphEncapsulate", ["x"])].
Proof.
  intros item x. split.
  - unfold nodes_to_preserve. apply elem_of_union_r.
    apply nodes_to_preserve_0_spec. left. simpl. set_solver.
  - vm_compute. reflexivity.
Qed.

(** ** Fetch entries *)

Section FetchNames.

Import StdString.

Lemma to_int_small (z : Z) : 0 <= z <= Int.INT_MAX -> Int.to_int z = z.
Proof.
  unfold Int.to_int, Int.INT_MAX. intros Hz.
  rewrite Z.mod_small by lia. lia.
Qed.

Lemma to_size_t_small (z : Z) : 0 <= z <= Int.SIZE_MAX -> Int.to_size_t z = z.
Proof.
  unfold Int.to_size_t, Int.SIZE_MAX. intros Hz.
  apply Z.mod_small. lia.
Qed.

(** [npos] goes to [-1] as an [int] and back to [npos] as a [size_t]. *)
Lemma npos_round_trip : Int.to_size_t (Int.to_int npos) = npos.
Proof. reflexivity. Qed.

Lemma append_nil (t : string) : "" +:+ t = t.
Proof. reflexivity. Qed.

Lemma append_cons (a : ascii) (s t : string) :
  String a s +:+ t = String a (s +:+ t).
Proof. reflexivity. Qed.

Lemma occurs_cons (c a : ascii) (s : string) :
  occurs c (String a s) <-> a = c \/ occurs c s.
Proof.
  unfold occurs. split.
  - intros (pre & post & Heq).
    destruct pre as [|b pre]; rewrite ?append_nil, ?append_cons in Heq.
    + injection Heq as -> _. left; reflexivity.
    + injection Heq as -> ->. right. eauto.
  - intros [-> | (pre & post & ->)].
    + exists "", s. reflexivity.
    + exists (String a pre), post. reflexivity.
Qed.

Lemma find_from_absent (c : ascii) (s : string) (i : Z) :
  ~ occurs c s -> find_from c s i = npos.
Proof.
  revert i. induction s as [|a s IH]; intros i Hno; simpl; [reflexivity | ].
  rewrite occurs_cons in Hno.
  destruct (Ascii.eqb_spec a c) as [-> | Hne]; [tauto | ].
  apply IH. tauto.
Qed.

Lemma find_from_first (c : ascii) (pre post : string) (i : Z) :
  ~ occurs c pre ->
  find_from c (pre +:+ String c post) i = i + Z.of_nat (String.length pre).
Proof.
  revert i.
  induction pre as [|a pre IH]; intros i Hno;
    rewrite ?append_nil, ?append_cons; simpl.
  - rewrite Ascii.eqb_refl. lia.
  - rewrite occurs_cons in Hno.
    destruct (Ascii.eqb_spec a c) as [-> | Hne]; [tauto | ].
    rewrite IH by tauto. lia.
Qed.

Lemma substring_all (s : string) : substring 0 (String.length s) s = s.
Proof. induction s as [|a s IH]; simpl; congruence. Qed.

Lemma substring_prefix (pre post : string) :
  substring 0 (String.length pre) (pre +:+ post) = pre.
Proof.
  induction pre as [|a pre IH]; rewrite ?append_nil, ?append_cons; simpl.
  - destruct post; reflexivity.
  - congruence.
Qed.

Lemma length_app (s1 s2 : string) :
  String.length (s1 +:+ s2) = (String.length s1 + String.length s2)%nat.
Proof.
  induction s1 as [|a s1 IH]; rewrite ?append_nil, ?append_cons; simpl;
    congruence.
Qed.

Lemma fetch_node_name_whole (f : string) :
  Z.of_nat (String.length f) <= Int.INT_MAX ->
  ~ occurs ":" f -> fetch_node_name f = f.
Proof.
  intros Hlen Hno. unfold fetch_node_name, find.
  rewrite find_from_absent by assumption.
  rewrite npos_round_trip. unfold substr0.
  rewrite Z.min_r by (unfold npos, Int.SIZE_MAX, Int.INT_MAX in *; lia).
  rewrite Nat2Z.id. apply substring_all.
Qed.

Lemma fetch_node_name_prefix (name rest : string) :
  Z.of_nat (String.length (name +:+ String ":" rest)) <= Int.INT_MAX ->
  ~ occurs ":" name ->
  fetch_node_name (name +:+ String ":" rest) = name.
Proof.
  intros Hlen Hno. unfold fetch_node_name, find.
  rewrite find_from_first by assumption.
  rewrite length_app in Hlen. simpl in Hlen.
  rewrite Z.add_0_l, to_int_small by lia.
  rewrite to_size_t_small by (unfold Int.SIZE_MAX, Int.INT_MAX in *; lia).
  unfold substr0. rewrite length_app. simpl.
  rewrite Z.min_l by lia.
  rewrite Nat2Z.id. apply substring_prefix.
Qed.

Lemma fetch_nodes_of_acc (fetch : list string) (acc : gset string) :
  foldl (fun acc f => {[ fetch_node_name f ]} ∪ acc) acc fetch
  = list_to_set (fetch_node_name <$> fetch) ∪ acc.
Proof.
  revert acc. induction fetch as [|f fetch IH]; intros acc; simpl.
  - set_solver.
  - rewrite IH. set_solver.
Qed.


End FetchNames.


(** ** The serial counter *)

Section Counter.

Context {CM : Type}.

Lemma to_int_in_range (z : Z) : Int.in_int z -> Int.to_int z = z.
Proof.
  unfold Int.in_int, Int.to_int, Int.INT_MIN, Int.INT_MAX. intros Hz.
  rewrite Z.mod_small by lia. lia.
Qed.

Lemma FreshIndex_times_spec (n : nat) (st : @State CM) :
  Int.INT_MIN <= s_serial_counter st ->
  s_serial_counter st + Z.of_nat n <= Int.INT_MAX ->
  (FreshIndex_times n st).1
    = (fun i => s_serial_counter st + Z.of_nat i) <$> seq 0 n /\
  s_serial_counter (FreshIndex_times n st).2 = s_serial_counter st + Z.of_nat n.
Proof.
  revert st. induction n as [|n IH]; intros st Hlo Hhi.
  - simpl. split; [reflexivity | lia].
  - cbn [FreshIndex_times FreshIndex].
    set (st1 := mkState (Int.to_int (s_serial_counter st + 1)) (clusters st)
                        (output st)).
    assert (Hc : s_serial_counter st1 = s_serial_counter st + 1).
    { subst st1. cbn [s_serial_counter].
      apply to_int_in_range. unfold Int.in_int. lia. }
    destruct (IH st1) as [IH1 IH2]; [lia | lia | ].
    rewrite Hc in IH1, IH2. clearbody st1.
    destruct (FreshIndex_times n st1) as [rest st2]. simpl in IH1, IH2.
    cbn [fst snd fmap list_fmap seq]. split.
    + rewrite IH1. f_equal; [lia | ].
      rewrite <- seq_shift, <- list_fmap_compose.
      apply list_fmap_ext. intros _ i _. simpl. lia.
    + rewrite IH2. lia.
Qed.

(** What a run of [Optimize] does to the counter and which index it uses. *)
Lemma Optimize_counter (E : @Collaborators CM) (self : OVTFOptimizer)
    (item : GrapplerItem) (st st' : State) (r : Outcome unit) (t : list Call) :
  Optimize E self item st = (r, st', t) ->
  (forall idx, In (Call_FreshIndex idx) t ->
     idx = s_serial_counter st /\
     s_serial_counter st' = Int.to_int (s_serial_counter st + 1)) /\
  (forall idx stage, In (Call_DumpTFGraph idx stage) t ->
     idx = s_serial_counter st) /\
  (forall idx config s, In (Call_EncapsulateClusters idx config s) t ->
     idx = s_serial_counter st /\ config = m_config_map self).
Proof.
  intros Hrun. apply Optimize_iff_Run in Hrun.
  inversion Hrun; subst; clear Hrun;
    (split; [ | split]); intros; in_trace H; simplify_eq; auto;
    match goal with H : _ |- _ => in_trace H; simplify_eq; auto end.
Qed.

(** C8: as long as the [int] counter does not overflow, [n] successive
    calls of [FreshIndex] return the counter's value, then that value plus
    one, and so on: each call returns the previous value plus one, and
    later calls return strictly larger values.  Each run of [Optimize]
    that takes an index takes the counter's value, names its dumps and its
    fused nodes with it, and the next run that takes one gets the next
    value. *)
Theorem FreshIndex_strictly_increasing (n : nat) (st : @State CM) :
  Int.INT_MIN <= s_serial_counter st ->
  s_serial_counter st + Z.of_nat n <= Int.INT_MAX ->
  let returned := (FreshIndex_times n st).1 in
  returned = (fun i => s_serial_counter st + Z.of_nat i) <$> seq 0 n /\
  (forall i a b,
     returned !! i = Some a -> returned !! S i = Some b -> b = a + 1) /\
  (forall i j a b,
     (i < j)%nat -> returned !! i = Some a -> returned !! j = Some b -> a < b) /\
  (forall (E1 E2 : @Collaborators CM) self1 self2 item1 item2
          r1 st1 t1 r2 st2 t2 i j,
     (1 <= n)%nat ->
     Optimize E1 self1 item1 st = (r1, st1, t1) ->
     Optimize E2 self2 item2 st1 = (r2, st2, t2) ->
     In (Call_FreshIndex i) t1 -> In (Call_FreshIndex j) t2 ->
     j = i + 1 /\
     (forall idx stage, In (Call_DumpTFGraph idx stage) t1 -> idx = i) /\
     (forall idx config s,
        In (Call_EncapsulateClusters idx config s) t1 -> idx = i)).
Proof.
  intros Hlo Hhi returned.
  destruct (FreshIndex_times_spec n st Hlo Hhi) as [Hret _].
  fold returned in Hret.
  assert (Hlook : forall i a, returned !! i = Some a ->
                    a = s_serial_counter st + Z.of_nat i).
  { intros i a. rewrite Hret, list_lookup_fmap.
    destruct (seq 0 n !! i) as [k|] eqn:Hk; [ | discriminate].
    apply lookup_seq in Hk as [-> _]. simpl. congruence. }
  split; [exact Hret | ]. split; [ | split].
  - intros i a b Ha Hb. apply Hlook in Ha, Hb. lia.
  - intros i j a b Hij Ha Hb. apply Hlook in Ha, Hb. lia.
  - intros E1 E2 self1 self2 item1 item2 r1 st1 t1 r2 st2 t2 i j
      Hn Hrun1 Hrun2 Hi Hj.
    destruct (Optimize_counter _ _ _ _ _ _ _ Hrun1) as (Hc1 & Hd1 & He1).
    destruct (Optimize_counter _ _ _ _ _ _ _ Hrun2) as (Hc2 & _ & _).
    destruct (Hc1 i Hi) as [-> Hst1]. destruct (Hc2 j Hj) as [-> _].
    rewrite Hst1, to_int_in_range by (unfold Int.in_int; lia).
    split; [reflexivity | split].
    + intros idx stage H. exact (Hd1 idx stage H).
    + intros idx config s H. exact (proj1 (He1 idx config s H)).
Qed.

End Counter.

Lemma FreshIndex_strictly_increasing_witness :
  (FreshIndex_times 3 Demo.st0).1 = [0; 1; 2].
Proof.
  exact (proj1 (FreshIndex_strictly_increasing 3 Demo.st0
                  ltac:(vm_compute; discriminate)
                  ltac:(vm_compute; discriminate))).
Defined.

(** ** Init *)

Section InitFacts.

Lemma prefix_inj (p a b : string) : p +:+ a = p +:+ b -> a = b.
Proof.
  induction p as [|c p IH]; rewrite ?append_nil, ?append_cons.
  - auto.
  - intros [= H]. auto.
Qed.

(** The loop of [Init], whatever the order in which the parameters come. *)
Lemma Init_fold (m0 : gmap string string) (params : gmap string AttrValue) :
  let r := map_fold Init_step m0 params in
  (forall key v, params !! key = Some v ->
     r !! ("_ovtf_" +:+ key) = Some (AttrValue_s v)) /\
  (forall k, (forall key, is_Some (params !! key) -> k <> "_ovtf_" +:+ key) ->
     r !! k = m0 !! k).
Proof.
  apply (map_fold_weak_ind
           (fun r (m : gmap string AttrValue) =>
              (forall key v, m !! key = Some v ->
                 r !! ("_ovtf_" +:+ key) = Some (AttrValue_s v)) /\
              (forall k, (forall key, is_Some (m !! key) -> k <> "_ovtf_" +:+ key) ->
                 r !! k = m0 !! k))).
  - split.
    + intros key v H. rewrite lookup_empty in H. discriminate.
    + reflexivity.
  - intros i x m r Hfresh [IH1 IH2]. unfold Init_step. split.
    + intros key v Hkey.
      destruct (decide (i = key)) as [-> | Hne].
      * rewrite lookup_insert_eq in Hkey. injection Hkey as ->.
        apply lookup_insert_eq.
      * rewrite lookup_insert_ne in Hkey by assumption.
        rewrite lookup_insert_ne; [auto | ].
        intros Heq. apply prefix_inj in Heq. contradiction.
    + intros k Hk.
      rewrite lookup_insert_ne.
      * apply IH2. intros key Hsome. apply Hk.
        destruct (decide (i = key)) as [-> | Hne].
        -- rewrite lookup_insert_eq. eauto.
        -- rewrite lookup_insert_ne by assumption. exact Hsome.
      * intros Heq. symmetry in Heq. revert Heq. apply Hk.
        rewrite lookup_insert_eq. eauto.
Qed.

(** C9: [Init] returns OK; for every parameter [(key, v)] the
    configuration map then binds ["_ovtf_" + key] to the string value of
    [v]; the keys that are not of this form keep their binding; and a run
    of [Optimize] on the initialised optimizer hands exactly this map to
    the encapsulator. *)
Theorem Init_stores_parameters
    (self : OVTFOptimizer) (params : gmap string AttrValue)
    (key : string) (v : AttrValue) :
  params !! key = Some v ->
  let self' := (Init self params).2 in
  (Init self params).1 = OK /\
  m_config_map self' !! ("_ovtf_" +:+ key) = Some (AttrValue_s v) /\
  (forall k, (forall key', is_Some (params !! key') -> k <> "_ovtf_" +:+ key') ->
     m_config_map self' !! k = m_config_map self !! k) /\
  (forall (CM : Type) (E : @Collaborators CM) item st r st' t idx config s,
     Optimize E self' item st = (r, st', t) ->
     In (Call_EncapsulateClusters idx config s) t ->
     config = m_config_map self').
Proof.
  intros Hkey self'.
  destruct (Init_fold (m_config_map self) params) as [H1 H2].
  split; [reflexivity | ]. split; [exact (H1 key v Hkey) | ].
  split; [exact H2 | ].
  intros CM E item st r st' t idx config s Hrun Hin.
  destruct (Optimize_counter E _ _ _ _ _ _ Hrun) as (_ & _ & He).
  exact (proj2 (He idx config s Hin)).
Qed.

End InitFacts.

Lemma Init_stores_parameters_witness :
  let params : gmap string AttrValue := {[ "device_id" := AttrS "GPU" ]} in
  m_config_map (Init Demo.self0 params).2 !! "_ovtf_device_id" = Some "GPU".
Proof.
  intros params.
  exact (proj1 (proj2 (Init_stores_parameters Demo.self0 params "device_id"
                         (AttrS "GPU") ltac:(vm_compute; reflexivity)))).
Defined.

(** ** The graph iterator *)

Module GraphIteratorFacts.

Import GraphIterator.

(** The constructor's loop, slot by slot. *)
Lemma fill_lookup (f : nat -> option NodeDef) (l : list nat)
    (v : list (option NodeDef)) (i : nat) :
  (i < length v)%nat ->
  foldl (fun v i => <[i := f i]> v) v l !! i
  = if decide (i ∈ l) then Some (f i) else v !! i.
Proof.
  revert v. induction l as [|a l IH]; intros v Hi; simpl.
  - reflexivity.
  - rewrite IH by (rewrite length_insert; exact Hi).
    destruct (decide (i ∈ l)) as [Hin | Hnin].
    + rewrite decide_True by (right; exact Hin). reflexivity.
    + destruct (decide (a = i)) as [-> | Hne].
      * rewrite decide_True by left.
        apply list_lookup_insert_eq. exact Hi.
      * rewrite decide_False by (intros Hin; inversion Hin; subst; tauto).
        apply list_lookup_insert_ne. exact Hne.
Qed.

Lemma fill_length (f : nat -> option NodeDef) (l : list nat)
    (v : list (option NodeDef)) :
  length (foldl (fun v i => <[i := f i]> v) v l) = length v.
Proof.
  revert v. induction l as [|a l IH]; intros v; simpl; [reflexivity | ].
  rewrite IH. apply length_insert.
Qed.

Lemma node_size_wf (g : GraphDef) :
  GraphDef_wf g -> node_size g = Z.of_nat (length (gd_node g)).
Proof.
  unfold GraphDef_wf, node_size. intros Hwf. apply to_int_small. lia.
Qed.

(** Once constructed, slot [i] points to node [i] of the graph. *)
Lemma make_nodes (g : GraphDef) :
  GraphDef_wf g -> m_nodes (make g) = Some <$> gd_node g.
Proof.
  intros Hwf. unfold make, fill_nodes. cbn [m_nodes].
  rewrite node_size_wf by assumption.
  rewrite to_size_t_small
    by (unfold GraphDef_wf, Int.INT_MAX, Int.SIZE_MAX in *; lia).
  rewrite Nat2Z.id.
  set (n := length (gd_node g)).
  apply list_eq. intros i.
  destruct (decide (i < n)%nat) as [Hlt | Hge].
  - rewrite fill_lookup by (rewrite length_replicate; exact Hlt).
    rewrite length_replicate.
    rewrite decide_True by (apply elem_of_seq; lia).
    unfold node_ptr.
    rewrite to_int_small by (unfold GraphDef_wf in Hwf; lia).
    rewrite Nat2Z.id, list_lookup_fmap.
    destruct (gd_node g !! i) as [nd|] eqn:Hnd; [reflexivity | ].
    apply lookup_ge_None in Hnd. subst n. lia.
  - rewrite !lookup_ge_None_2; [reflexivity | | ].
    + rewrite length_fmap. subst n. lia.
    + rewrite fill_length, length_replicate. lia.
Qed.

Lemma size_make (g : GraphDef) :
  GraphDef_wf g -> size (make g) = Z.of_nat (length (gd_node g)).
Proof.
  intros Hwf. unfold size. rewrite make_nodes by assumption.
  rewrite length_fmap. reflexivity.
Qed.

(** [k] calls of [next] after [reset]. *)
Lemma iter_next (it : OVTFGraphIterator) (k : nat) :
  Nat.iter k next (reset it)
  = mkIterator (m_nodes it) (Z.of_nat k mod 2 ^ 64) (m_graph_def it).
Proof.
  induction k as [|k IH].
  - reflexivity.
  - rewrite Nat.iter_succ, IH. unfold next, Int.to_size_t.
    cbn [m_nodes node_index m_graph_def]. f_equal.
    rewrite Z.add_mod_idemp_l by lia. f_equal. lia.
Qed.

Lemma collect_from (nodes : list (option NodeDef)) (g : GraphDef)
    (fuel i : nat) :
  Z.of_nat (length nodes) <= Int.INT_MAX ->
  (i <= length nodes)%nat ->
  (length nodes - i <= fuel)%nat ->
  collect fuel (mkIterator nodes (Z.of_nat i) g)
  = Some (mkDecoder <$> drop i nodes).
Proof.
  intros Hmax. revert i.
  induction fuel as [|fuel IH]; intros i Hi Hfuel.
  - assert (i = length nodes) as -> by lia.
    rewrite drop_all. cbn [collect]. unfold is_end, size.
    cbn [m_nodes node_index].
    rewrite (proj2 (Z.leb_le _ _)) by lia. reflexivity.
  - cbn [collect]. unfold is_end, size. cbn [m_nodes node_index].
    destruct (Z.leb_spec (Z.of_nat (length nodes)) (Z.of_nat i)) as [Hend | Hin].
    + assert (i = length nodes) as -> by lia.
      rewrite drop_all. reflexivity.
    + unfold get_decoder. cbn [m_nodes node_index]. rewrite Nat2Z.id.
      destruct (nodes !! i) as [p|] eqn:Hp;
        [ | apply lookup_ge_None in Hp; lia].
      cbn [fmap option_fmap option_map mbind option_bind].
      unfold next. cbn [m_nodes node_index m_graph_def].
      rewrite to_size_t_small
        by (unfold Int.INT_MAX, Int.SIZE_MAX in *; lia).
      replace (Z.of_nat i + 1) with (Z.of_nat (S i)) by lia.
      rewrite IH by lia.
      rewrite (drop_S _ _ _ Hp). reflexivity.
Qed.

Lemma run_nodes (ops : list IteratorOps.Op) (it : OVTFGraphIterator) :
  m_nodes (IteratorOps.run ops it) = m_nodes it /\
  m_graph_def (IteratorOps.run ops it) = m_graph_def it.
Proof.
  unfold IteratorOps.run.
  induction ops as [|o ops IH] using rev_ind; [split; reflexivity | ].
  rewrite foldl_snoc. destruct IH as [Hn Hg].
  destruct o; split; assumption.
Qed.

(** C10: for a [GraphDef] within the size a repeated field can have, an
    iterator constructed over it, wherever earlier calls of [reset] and
    [next] have left it, has as many slots as the graph has nodes; after
    [reset] and [k] calls of [next] ([k] below [2^64], where [node_index]
    wraps), [is_end] holds exactly when [k] is at least [size()], and
    before the end [get_decoder] wraps node [k] of the graph; so the loop
    from [reset] to [is_end] yields the decoders of all the nodes, once
    each, in the order of the graph. *)
Theorem iterator_traversal
    (g : GraphDef) (ops : list IteratorOps.Op) (k : nat) :
  GraphDef_wf g ->
  Z.of_nat k <= Int.SIZE_MAX ->
  let it := IteratorOps.run ops (make g) in
  let it_k := Nat.iter k next (reset it) in
  size it = Z.of_nat (length (gd_node g)) /\
  (is_end it_k = true <-> size it <= Z.of_nat k) /\
  (is_end it_k = false ->
   exists nd, gd_node g !! k = Some nd /\
              get_decoder it_k = Some (mkDecoder (Some nd))) /\
  (forall fuel, (length (gd_node g) <= fuel)%nat ->
     traverse fuel it = Some ((fun nd => mkDecoder (Some nd)) <$> gd_node g)).
Proof.
  intros Hwf Hk it it_k.
  assert (Hnodes : m_nodes it = Some <$> gd_node g).
  { subst it. rewrite (proj1 (run_nodes ops (make g))). apply make_nodes, Hwf. }
  assert (Hsize : size it = Z.of_nat (length (gd_node g))).
  { unfold size. rewrite Hnodes, length_fmap. reflexivity. }
  assert (Hit : it_k = mkIterator (m_nodes it) (Z.of_nat k) (m_graph_def it)).
  { subst it_k. rewrite iter_next. f_equal.
    apply Z.mod_small. unfold Int.SIZE_MAX in Hk. lia. }
  assert (Hend : is_end it_k = true <-> size it <= Z.of_nat k).
  { rewrite Hit. unfold is_end, size. cbn [m_nodes node_index].
    apply Z.leb_le. }
  split; [exact Hsize | ]. split; [exact Hend | ]. split.
  - intros Hnot.
    assert (Hlt : (k < length (gd_node g))%nat).
    { destruct (decide (k < length (gd_node g))%nat) as [|Hge]; [assumption | ].
      assert (is_end it_k = true) by (apply Hend; lia). congruence. }
    destruct (gd_node g !! k) as [nd|] eqn:Hnd;
      [ | apply lookup_ge_None in Hnd; lia].
    exists nd. split; [reflexivity | ].
    rewrite Hit. unfold get_decoder. cbn [m_nodes node_index].
    rewrite Nat2Z.id, Hnodes, list_lookup_fmap, Hnd. reflexivity.
  - intros fuel Hfuel. unfold traverse, reset.
    change 0 with (Z.of_nat 0).
    rewrite collect_from.
    + rewrite drop_0, Hnodes, <- list_fmap_compose. reflexivity.
    + rewrite Hnodes, length_fmap. exact Hwf.
    + lia.
    + rewrite Hnodes, length_fmap. lia.
Qed.

End GraphIteratorFacts.

(** A two-node graph, the iterator first moved past its end. *)
Lemma iterator_traversal_witness :
  let g := mkGraphDef [Demo.x_relu; mkNodeDef "y" "Add" ["x"; "x"] ∅] in
  let moved :=
    [IteratorOps.op_next; IteratorOps.op_next; IteratorOps.op_next] in
  GraphIterator.traverse 2 (IteratorOps.run moved (GraphIterator.make g))
  = Some ((fun nd => GraphIterator.mkDecoder (Some nd)) <$> gd_node g).
Proof.
  intros g moved.
  refine (proj2 (proj2 (proj2
            (GraphIteratorFacts.iterator_traversal g moved 1 _ _))) 2%nat _).
  - vm_compute. discriminate.
  - vm_compute. discriminate.
  - apply le_n.
Defined.

(** * Further properties of the code *)

(** ** Optimize: what every run does *)

Section EveryRun.

Context {CM : Type} (E : @Collaborators CM).

(** Results of one call made twice agree; impossible cases go. *)
Ltac agree :=
  repeat match goal with
    | H : enters_rewrite _ _ _ |- _ => destruct H as [[? ?] [? ?]]
    | H : reaches_gate _ _ _ |- _ => destruct H as [? ?]
    | H : marked_graph _ _ _ _ |- _ => destruct H as (? & ? & ? & ? & ?)
    | H1 : ?a = _, H2 : ?a = _ |- _ =>
        rewrite H1 in H2; inversion H2; subst; clear H2
    end.

Ltac traces :=
  unfold t_success, t_encapsulate, t_deassign, t_assign, t_backend,
    t_identity, t_skip, t_gate in *.

Lemma not_ok_neq_OK (s : Status) : ok s = false -> Return (A:=unit) s <> Return OK.
Proof. intros Hs [= ->]. discriminate Hs. Qed.

(** X1: the caller's output is written exactly when [Optimize] returns OK:
    [ToGraphDef] is called in the runs that return OK and in no other, and
    every other run (an error status or the exception) leaves the output
    as it was on entry. *)
Theorem Optimize_writes_output_iff_OK
    (self : OVTFOptimizer) (item : GrapplerItem) (st st' : State)
    (r : Outcome unit) (t : list Call) :
  Optimize E self item st = (r, st', t) ->
  (In Call_ToGraphDef t <-> r = Return OK) /\
  (r <> Return OK -> output st' = output st).
Proof.
  intros Hrun. apply Optimize_iff_Run in Hrun.
  inversion Hrun; subst; clear Hrun; traces;
    (split; [split | ]).
  all: try (intros Hin; in_trace Hin; fail).
  all: try (intros _; reflexivity).
  all: try (intros _; simpl; repeat (first [left; reflexivity | right]); fail).
  all: try (intros Hne; contradiction Hne; reflexivity).
  all: intros [= Heq];
    match goal with H : ok _ = false |- _ => rewrite Heq in H; discriminate H end.
Qed.

(** X2: when [Optimize] returns a status that is not OK, that status is
    the one handed back by the last call of the run, and every earlier
    call whose status [Optimize] inspects returned OK: among the inspected
    calls the first failure ends the run and is passed on unchanged.  (The
    statuses of [PredictCosts] and of the attribute setters are dropped by
    the source and take no part.) *)
Theorem Optimize_returns_first_failure
    (self : OVTFOptimizer) (item : GrapplerItem) (st st' : State)
    (s : Status) (t : list Call) :
  Optimize E self item st = (Return s, st', t) ->
  ok s = false ->
  exists t0 c,
    t = (t0 ++ [c])%list /\
    checked_status c = Some s /\
    Forall (fun c' => forall s', checked_status c' = Some s' -> s' = OK) t0.
Proof.
  intros Hrun Hs. apply Optimize_iff_Run in Hrun.
  assert (Hall : forall l : list Call,
             forallb (fun c' => match checked_status c' with
                                | Some s' => ok s'
                                | None => true
                                end) l = true ->
             Forall (fun c' => forall s', checked_status c' = Some s' -> s' = OK) l).
  { intros l Hl. apply List.Forall_forall. intros c' Hc' s' Hs'.
    rewrite forallb_forall in Hl. specialize (Hl c' Hc').
    rewrite Hs' in Hl. apply ok_true. exact Hl. }
  inversion Hrun; subst; clear Hrun; try discriminate Hs; traces.
  - exists [], (Call_ConvertGraphDefToGraph s). repeat split. constructor.
  - eexists [_], _. repeat split. apply Hall. reflexivity.
  - eexists [_; _; _; _; _], _. repeat split. apply Hall. reflexivity.
  - eexists [_; _; _; _; _; _; _; _; _; _], _. repeat split.
    apply Hall. reflexivity.
  - eexists [_; _; _; _; _; _; _; _; _; _; _; _], _. repeat split.
    apply Hall. reflexivity.
  - eexists [_; _; _; _; _; _; _; _; _; _; _; _; _; _], _. repeat split.
    apply Hall. reflexivity.
Qed.

(** X3: [Optimize] throws only for an unresolved backend: a run that ends
    with an exception made a [GetBackendName] call that did not return OK,
    that call is the last of the run, and the exception carries the
    message of its status. *)
Theorem Optimize_throws_only_on_backend
    (self : OVTFOptimizer) (item : GrapplerItem) (st st' : State)
    (what : string) (t : list Call) :
  Optimize E self item st = (Throw what, st', t) ->
  exists s t0,
    t = (t0 ++ [Call_GetBackendName s])%list /\
    ok s = false /\
    what = error_message s.
Proof.
  intros Hrun. apply Optimize_iff_Run in Hrun.
  inversion Hrun; subst; clear Hrun. traces.
  eexists s, [_; _; _; _; _; _; _]. repeat split. assumption.
Qed.

(** X4: a run takes a pass index exactly when the conversion and the cost
    estimator succeed: then [FreshIndex] is called once and the counter
    moves on by one step, in a pass-through run too; otherwise the run
    returns the failing status and the whole state (counter, cluster
    manager, output) is as on entry. *)
Theorem Optimize_index_use
    (self : OVTFOptimizer) (item : GrapplerItem) (st st' : State)
    (r : Outcome unit) (t : list Call) :
  Optimize E self item st = (r, st', t) ->
  ((exists graph, reaches_gate E item graph) ->
     List.filter is_FreshIndex t = [Call_FreshIndex (s_serial_counter st)] /\
     s_serial_counter st' = Int.to_int (s_serial_counter st + 1)) /\
  ((~ exists graph, reaches_gate E item graph) ->
     st' = st /\ List.filter is_FreshIndex t = [] /\
     exists s, r = Return s /\ ok s = false).
Proof.
  intros Hrun. apply Optimize_iff_Run in Hrun.
  inversion Hrun; subst; clear Hrun; traces; split.
  all: try (intros [g Hg]; agree;
            repeat match goal with
              | H : ok OK = false |- _ => discriminate H
              | H1 : ?a = OK, H2 : ok ?a = false |- _ =>
                  rewrite H1 in H2; discriminate H2
              end; fail).
  all: try (intros _; split; reflexivity).
  all: try (intros _; split; [reflexivity | split; [reflexivity | eauto]]).
  all: try (intros Hno; contradiction Hno;
            agree; eexists; split; eassumption).
Qed.

(** X5: the cluster manager is evicted only in pass-through runs:
    [EvictAllClusters] and [EvictMRUClusters] are called together or not at
    all, and when they are called the run is a pass-through run; a run
    that starts the rewrite never calls them. *)
Theorem Optimize_evicts_only_in_pass_through
    (self : OVTFOptimizer) (item : GrapplerItem) (st st' : State)
    (r : Outcome unit) (t : list Call) :
  Optimize E self item st = (r, st', t) ->
  (In Call_EvictAllClusters t <-> In Call_EvictMRUClusters t) /\
  (In Call_EvictAllClusters t ->
     exists graph, reaches_gate E item graph /\
                   passes_through E item graph st (r, st', t)) /\
  (forall names s, In (Call_AddIdentityN names s) t ->
     ~ In Call_EvictAllClusters t).
Proof.
  intros Hrun. apply Optimize_iff_Run in Hrun.
  inversion Hrun; subst; clear Hrun; traces.
  3:{ split; [simpl; tauto | split].
      - intros _. exists graph. split; [assumption | reflexivity].
      - intros names s Hin. in_trace Hin. }
  all: (split; [split; intros Hin; in_trace Hin | split]);
    [intros Hin; in_trace Hin | intros names s' _ Hin; in_trace Hin].
Qed.

End EveryRun.

Lemma Optimize_writes_output_iff_OK_witness :
  let E := Demo.collaborators None true OK (Error 3 "dangling edge") in
  let x := Optimize E Demo.self0 (Demo.item_x [] []) Demo.st0 in
  (In Call_ToGraphDef x.2 <-> x.1.1 = Return OK) /\
  (x.1.1 <> Return OK -> output x.1.2 = output Demo.st0).
Proof.
  intros E x.
  apply (Optimize_writes_output_iff_OK E Demo.self0 (Demo.item_x [] [])
           Demo.st0 x.1.2 x.1.1 x.2).
  apply result_eta.
Defined.

Lemma Optimize_returns_first_failure_witness :
  let E := Demo.collaborators None true OK (Error 3 "dangling edge") in
  let x := Optimize E Demo.self0 (Demo.item_x [] []) Demo.st0 in
  exists t0 c,
    x.2 = (t0 ++ [c])%list /\
    checked_status c = Some (Error 3 "dangling edge") /\
    Forall (fun c' => forall s', checked_status c' = Some s' -> s' = OK) t0.
Proof.
  intros E x.
  apply (Optimize_returns_first_failure E Demo.self0 (Demo.item_x [] [])
           Demo.st0 x.1.2 (Error 3 "dangling edge") x.2).
  - vm_compute. reflexivity.
  - reflexivity.
Defined.

Lemma Optimize_throws_only_on_backend_witness :
  let E := Demo.collaborators None true (Error 13 "no backend") OK in
  let x := Optimize E Demo.self0 (Demo.item_x [] []) Demo.st0 in
  exists s t0,
    x.2 = (t0 ++ [Call_GetBackendName s])%list /\
    ok s = false /\
    "no backend" = error_message s.
Proof.
  intros E x.
  apply (Optimize_throws_only_on_backend E Demo.self0 (Demo.item_x [] [])
           Demo.st0 x.1.2 "no backend" x.2).
  vm_compute. reflexivity.
Defined.

Lemma Optimize_index_use_witness :
  let E := Demo.collaborators (Some "1") true OK OK in
  let x := Optimize E Demo.self0 (Demo.item_x [] []) Demo.st0 in
  List.filter is_FreshIndex x.2 = [Call_FreshIndex 0] /\
  s_serial_counter x.1.2 = Int.to_int (0 + 1).
Proof.
  intros E x.
  apply (proj1 (Optimize_index_use E Demo.self0 (Demo.item_x [] [])
                  Demo.st0 x.1.2 x.1.1 x.2 (result_eta _))).
  exists (mkGraph [Demo.x_relu]). split; reflexivity.
Defined.

Lemma Optimize_evicts_only_in_pass_through_witness :
  let E := Demo.collaborators None false OK OK in
  let item := Demo.item_x [] [] in
  let x := Optimize E Demo.self0 item Demo.st0 in
  exists graph, reaches_gate E item graph /\
                passes_through E item graph Demo.st0 (x.1.1, x.1.2, x.2).
Proof.
  intros E item x.
  apply (proj1 (proj2 (Optimize_evicts_only_in_pass_through E Demo.self0
                         item Demo.st0 x.1.2 x.1.1 x.2 (result_eta _)))).
  vm_compute. tauto.
Defined.

(** ** Optimize: the fetch names and the environment *)

Section FetchAndEnvironment.

Context {CM : Type} (E : @Collaborators CM).

Lemma disabled_nodes_acc (nodes : list Node) (acc : gset string) (x : string) :
  x ∈ foldl (fun acc itr =>
               if decide (Node_type_string itr ∈ api_GetDisabledOps E)
               then {[ Node_name itr ]} ∪ acc else acc) acc nodes
  <-> x ∈ acc \/
      exists n, n ∈ nodes /\ Node_name n = x /\
                Node_type_string n ∈ api_GetDisabledOps E.
Proof.
  revert acc. induction nodes as [|n nodes IH]; intros acc; simpl.
  - split; [auto | ]. intros [H | (n & Hn & _)]; [exact H | ].
    inversion Hn.
  - rewrite IH. split.
    + intros [Hacc | (n' & Hn' & Hname & Hty)].
      * destruct (decide (Node_type_string n ∈ api_GetDisabledOps E))
          as [Hd | Hd]; [ | auto].
        apply elem_of_union in Hacc as [Hx | Hacc]; [ | auto].
        apply elem_of_singleton in Hx. subst x.
        right. exists n. split; [left | auto].
      * right. exists n'. split; [right; exact Hn' | auto].
    + intros [Hacc | (n' & Hn' & Hname & Hty)].
      * left. destruct (decide _); [apply elem_of_union_r | ]; exact Hacc.
      * apply elem_of_cons in Hn' as [-> | Hn'].
        -- left. rewrite decide_True by exact Hty.
           apply elem_of_union_l, elem_of_singleton. auto.
        -- right. exists n'. auto.
Qed.

Lemma fetch_nodes_of_elem (fetch : list string) (x : string) :
  x ∈ fetch_nodes_of fetch <-> exists f, f ∈ fetch /\ fetch_node_name f = x.
Proof.
  unfold fetch_nodes_of. rewrite fetch_nodes_of_acc.
  rewrite elem_of_union, elem_of_list_to_set, list_elem_of_fmap.
  split.
  - intros [(f & -> & Hf) | Hempty]; [eauto | ].
    apply not_elem_of_empty in Hempty. contradiction.
  - intros (f & Hf & <-). left. eauto.
Qed.

(** X6: whenever [AddIdentityN] is called, the set it receives holds
    exactly the names of the fetch entries for which no node of that name
    in the converted graph has a disabled op type: a fetch node of a
    disabled type is never handed over for an identity node. *)
Theorem Optimize_identity_names
    (self : OVTFOptimizer) (item : GrapplerItem) (st st' : State)
    (r : Outcome unit) (t : list Call) (names : gset string) (s : Status) :
  Optimize E self item st = (r, st', t) ->
  In (Call_AddIdentityN names s) t ->
  exists graph,
    ConvertGraphDefToGraph E (item_graph item) = (OK, graph) /\
    forall x,
      x ∈ names <->
      (exists f, f ∈ item_fetch item /\ fetch_node_name f = x) /\
      ~ (exists n, n ∈ graph_nodes graph /\ Node_name n = x /\
                   Node_type_string n ∈ api_GetDisabledOps E).
Proof.
  intros Hrun Hin. apply Optimize_iff_Run in Hrun.
  assert (Hspec : forall graph x,
            x ∈ nodes_to_add_identity_to E item graph <->
            (exists f, f ∈ item_fetch item /\ fetch_node_name f = x) /\
            ~ (exists n, n ∈ graph_nodes graph /\ Node_name n = x /\
                         Node_type_string n ∈ api_GetDisabledOps E)).
  { intros graph x. unfold nodes_to_add_identity_to, disabled_nodes.
    rewrite elem_of_difference, fetch_nodes_of_elem, disabled_nodes_acc.
    split; intros [H1 H2]; (split; [exact H1 | ]).
    - intros H. apply H2. right. exact H.
    - intros [H | H]; [ | auto]. apply not_elem_of_empty in H. exact H. }
  inversion Hrun; subst; clear Hrun; in_trace Hin;
    injection Hin as <- <-;
    match goal with
    | H : enters_rewrite _ _ ?g |- _ =>
        exists g; split; [apply H | apply Hspec]
    end.
Qed.

(** X7: the run depends on the fetch entries only through the set of
    their names: two fetch lists with the same names (entries in another
    order, repeated, or naming other output slots of the same nodes) give
    the same outcome, state and calls, provided the cost estimator
    initialises alike on both items. *)
Theorem Optimize_fetch_names_only
    (self : OVTFOptimizer) (id : string) (graph_def : GraphDef)
    (feed : list (string * Tensor)) (fetch1 fetch2 : list string)
    (init keep : list string) (st : State) :
  let item1 := mkItem id graph_def feed fetch1 init keep in
  let item2 := mkItem id graph_def feed fetch2 init keep in
  fetch_nodes_of fetch1 = fetch_nodes_of fetch2 ->
  estimator_Initialize E item1 = estimator_Initialize E item2 ->
  Optimize E self item1 st = Optimize E self item2 st.
Proof.
  intros item1 item2 Hnames Hest.
  unfold Optimize, do_Initialize, nodes_to_add_identity_to.
  cbn -[mbind fetch_nodes_of]. rewrite Hest, Hnames. reflexivity.
Qed.

(** X8: with the API enabled and a graph that is not processed yet, an
    OPENVINO_TF_DISABLE that is unset, or set to the empty string, does not
    switch the bridge off: the run evicts nothing and goes on to
    [AddIdentityN]. *)
Theorem Optimize_unset_or_empty_env
    (self : OVTFOptimizer) (item : GrapplerItem) (graph : Graph)
    (st st' : State) (r : Outcome unit) (t : list Call) :
  getenv E "OPENVINO_TF_DISABLE" = None \/
  getenv E "OPENVINO_TF_DISABLE" = Some "" ->
  api_IsEnabled E = true ->
  reaches_gate E item graph ->
  util_IsAlreadyProcessed E graph = false ->
  Optimize E self item st = (r, st', t) ->
  ~ In Call_EvictAllClusters t /\
  exists s, In (Call_AddIdentityN (nodes_to_add_identity_to E item graph) s) t.
Proof.
  intros Henv Hapi Hgate Hproc Hrun.
  assert (Hoff : ovtf_not_enabled E = false).
  { unfold ovtf_not_enabled. rewrite Hapi.
    destruct Henv as [-> | ->]; reflexivity. }
  apply Optimize_iff_Run in Hrun. destruct Hgate as [Hconv Hinit].
  inversion Hrun; subst; clear Hrun;
    repeat match goal with
      | H : enters_rewrite _ _ _ |- _ => destruct H as [[? ?] [? ?]]
      | H : reaches_gate _ _ _ |- _ => destruct H as [? ?]
      | H1 : ?a = _, H2 : ?a = _ |- _ =>
          rewrite H1 in H2; inversion H2; subst; clear H2
      end;
    try match goal with
      | H : ok OK = false |- _ => discriminate H
      | H1 : ?a = OK, H2 : ok ?a = false |- _ =>
          rewrite H1 in H2; discriminate H2
      | H : (ovtf_not_enabled E || _)%bool = true |- _ =>
          rewrite Hoff, Hproc in H; discriminate H
      end.
  all: (split; [intros Hin; in_trace Hin | ]).
  all: eexists; unfold t_success, t_encapsulate, t_deassign, t_assign,
         t_backend, t_identity, t_gate; simpl; do 5 right; left; reflexivity.
Qed.

End FetchAndEnvironment.

(** The demo graph with its only node fetched. *)
Lemma Optimize_identity_names_witness :
  let x := Optimize Demo.plain Demo.self0 (Demo.item_x [] ["x:0"]) Demo.st0 in
  exists graph,
    ConvertGraphDefToGraph Demo.plain (item_graph (Demo.item_x [] ["x:0"]))
      = (OK, graph) /\
    forall y,
      y ∈ ({[ "x" ]} : gset string) <->
      (exists f, f ∈ item_fetch (Demo.item_x [] ["x:0"]) /\
                 fetch_node_name f = y) /\
      ~ (exists n, n ∈ graph_nodes graph /\ Node_name n = y /\
                   Node_type_string n ∈ api_GetDisabledOps Demo.plain).
Proof.
  intros x.
  apply (Optimize_identity_names Demo.plain Demo.self0
           (Demo.item_x [] ["x:0"]) Demo.st0 x.1.2 x.1.1 x.2 {[ "x" ]} OK).
  - apply result_eta.
  - vm_compute. tauto.
Defined.

Lemma Optimize_fetch_names_only_witness :
  Optimize Demo.plain Demo.self0 (Demo.item_x [] ["x:1"; "x"; "x:0"]) Demo.st0
  = Optimize Demo.plain Demo.self0 (Demo.item_x [] ["x:0"]) Demo.st0.
Proof.
  apply (Optimize_fetch_names_only Demo.plain Demo.self0 "demo" Demo.graph_x
           [] ["x:1"; "x"; "x:0"] ["x:0"] [] [] Demo.st0).
  - vm_compute. reflexivity.
  - reflexivity.
Defined.

Lemma Optimize_unset_or_empty_env_witness :
  let E := Demo.collaborators (Some "") true OK OK in
  let item := Demo.item_x [] [] in
  let x := Optimize E Demo.self0 item Demo.st0 in
  ~ In Call_EvictAllClusters x.2 /\
  exists s,
    In (Call_AddIdentityN
          (nodes_to_add_identity_to E item (mkGraph [Demo.x_relu])) s) x.2.
Proof.
  intros E item x.
  apply (Optimize_unset_or_empty_env E Demo.self0 item
           (mkGraph [Demo.x_relu]) Demo.st0 x.1.2 x.1.1 x.2).
  - right. reflexivity.
  - reflexivity.
  - split; reflexivity.
  - reflexivity.
  - apply result_eta.
Defined.

(** ** Optimize: the marking loop *)

Section Marking.

Context {CM : Type} (E : @Collaborators CM).

Lemma mark_nodes_cons (i : nat) (l : list nat) (g : Graph) :
  mark_nodes E (i :: l) g
  = mark_nodes E l (mkGraph (alter (mark_node E) i (graph_nodes g))).
Proof. reflexivity. Qed.

Lemma mark_nodes_length (l : list nat) (g : Graph) :
  length (graph_nodes (mark_nodes E l g)) = length (graph_nodes g).
Proof.
  revert g. induction l as [|i l IH]; intros g; [reflexivity | ].
  rewrite mark_nodes_cons, IH. simpl. apply length_alter.
Qed.

Lemma mark_nodes_other (l : list nat) (g : Graph) (i : nat) :
  i ∉ l -> graph_nodes (mark_nodes E l g) !! i = graph_nodes g !! i.
Proof.
  revert g. induction l as [|j l IH]; intros g Hi; [reflexivity | ].
  apply not_elem_of_cons in Hi as [Hne Hi].
  rewrite mark_nodes_cons, IH by exact Hi. simpl.
  apply list_lookup_alter_ne. congruence.
Qed.

Lemma mark_nodes_listed (l : list nat) (g : Graph) (i : nat) :
  NoDup l -> i ∈ l ->
  graph_nodes (mark_nodes E l g) !! i = mark_node E <$> graph_nodes g !! i.
Proof.
  revert g. induction l as [|j l IH]; intros g Hnd Hi; [inversion Hi | ].
  apply NoDup_cons in Hnd as [Hj Hnd]. rewrite mark_nodes_cons.
  apply elem_of_cons in Hi as [-> | Hi].
  - rewrite mark_nodes_other by exact Hj. simpl.
    apply list_lookup_alter_eq.
  - rewrite IH by assumption. simpl.
    rewrite list_lookup_alter_ne; [reflexivity | ].
    intros ->. contradiction.
Qed.

(** X9: the marking loop keeps the number of nodes and leaves every node
    that is not in [nodes_list] exactly as it was; when the list names
    each node once, a listed node is rewritten by one application of the
    loop body. *)
Theorem mark_nodes_local (nodes_list : list nat) (graph : Graph) :
  length (graph_nodes (mark_nodes E nodes_list graph))
    = length (graph_nodes graph) /\
  (forall i, i ∉ nodes_list ->
     graph_nodes (mark_nodes E nodes_list graph) !! i = graph_nodes graph !! i) /\
  (NoDup nodes_list ->
   forall i, i ∈ nodes_list ->
     graph_nodes (mark_nodes E nodes_list graph) !! i
       = mark_node E <$> graph_nodes graph !! i).
Proof.
  split; [apply mark_nodes_length | split].
  - intros i. apply mark_nodes_other.
  - intros Hnd i. apply mark_nodes_listed. exact Hnd.
Qed.

Lemma mark_node_no_setter (n : Node) :
  GetAttributeSetters E !! Node_type_string n = None ->
  mark_node E n = Node_AddAttr "_ovtf_marked_for_clustering" (AttrB true) n.
Proof.
  intros Hno. unfold mark_node.
  change (Node_type_string
            (Node_AddAttr "_ovtf_marked_for_clustering" (AttrB true) n))
    with (Node_type_string n).
  rewrite Hno. reflexivity.
Qed.

Lemma mark_node_twice (n : Node) :
  GetAttributeSetters E !! Node_type_string n = None ->
  mark_node E (mark_node E n) = mark_node E n.
Proof.
  intros Hno. rewrite (mark_node_no_setter n Hno).
  rewrite mark_node_no_setter by exact Hno.
  unfold Node_AddAttr. simpl. rewrite insert_insert_eq. reflexivity.
Qed.

Lemma mark_nodes_no_setter_gen (l : list nat) (g : Graph) (i : nat) (n m : Node) :
  GetAttributeSetters E !! Node_type_string n = None ->
  graph_nodes g !! i = Some m ->
  (m = n /\ i ∈ l) \/ m = mark_node E n ->
  graph_nodes (mark_nodes E l g) !! i = Some (mark_node E n).
Proof.
  intros Hno. revert g m. induction l as [|j l IH]; intros g m Hm Hcase.
  - destruct Hcase as [[_ Hi] | ->]; [inversion Hi | exact Hm].
  - rewrite mark_nodes_cons.
    destruct (decide (j = i)) as [-> | Hne].
    + apply (IH _ (mark_node E m)).
      * simpl. rewrite list_lookup_alter_eq, Hm. reflexivity.
      * right. destruct Hcase as [[-> _] | ->];
          [reflexivity | apply mark_node_twice, Hno].
    + apply (IH _ m).
      * simpl. rewrite list_lookup_alter_ne by exact Hne. exact Hm.
      * destruct Hcase as [[-> Hi] | ->]; [left | right; reflexivity].
        split; [reflexivity | ].
        apply elem_of_cons in Hi as [-> | Hi]; [contradiction | exact Hi].
Qed.

(** X10: a node that the oracle lists, and whose type has no attribute
    setter, comes out of the marking loop with the attribute
    [_ovtf_marked_for_clustering] set to true and nothing else changed
    (same name, type, inputs and other attributes), however often the list
    names it. *)
Theorem mark_nodes_sets_marker
    (nodes_list : list nat) (graph : Graph) (i : nat) (n : Node) :
  i ∈ nodes_list ->
  graph_nodes graph !! i = Some n ->
  GetAttributeSetters E !! Node_type_string n = None ->
  graph_nodes (mark_nodes E nodes_list graph) !! i
  = Some (mkNodeDef (nd_name n) (nd_op n) (nd_input n)
            (<["_ovtf_marked_for_clustering" := AttrB true]> (nd_attr n))).
Proof.
  intros Hi Hn Hno.
  pose proof (mark_nodes_no_setter_gen nodes_list graph i n n Hno Hn
                (or_introl (conj eq_refl Hi))) as Hmarked.
  rewrite mark_node_no_setter in Hmarked by exact Hno. exact Hmarked.
Qed.

(** X11: the order in which the oracle lists the supported nodes does not
    matter: two lists that are permutations of each other leave the same
    graph. *)
Theorem mark_nodes_permutation (l1 l2 : list nat) (graph : Graph) :
  l1 ≡ₚ l2 -> mark_nodes E l1 graph = mark_nodes E l2 graph.
Proof.
  intros Hperm. revert graph.
  induction Hperm as [ | i l1 l2 _ IH | i j l | l1 l2 l3 _ IH1 _ IH2];
    intros graph.
  - reflexivity.
  - rewrite !mark_nodes_cons. apply IH.
  - rewrite !mark_nodes_cons. simpl. f_equal. f_equal.
    destruct (decide (i = j)) as [-> | Hne]; [reflexivity | ].
    apply list_alter_alter_ne. exact Hne.
  - rewrite IH1. apply IH2.
Qed.

End Marking.

Lemma mark_nodes_local_witness :
  let g := mkGraph [Demo.x_relu; mkNodeDef "y" "Add" ["x"; "x"] ∅] in
  graph_nodes (mark_nodes Demo.plain [1%nat] g) !! 0%nat = graph_nodes g !! 0%nat.
Proof.
  intros g.
  apply (proj1 (proj2 (mark_nodes_local Demo.plain [1%nat] g)) 0%nat).
  intros Hin. apply list_elem_of_In in Hin. simpl in Hin.
  destruct Hin as [Hin | []]. discriminate Hin.
Defined.

Lemma mark_nodes_sets_marker_witness :
  graph_nodes (mark_nodes Demo.plain [0%nat; 0%nat] (mkGraph [Demo.x_relu]))
    !! 0%nat
  = Some (mkNodeDef "x" "Relu" []
            (<["_ovtf_marked_for_clustering" := AttrB true]> ∅)).
Proof.
  apply (mark_nodes_sets_marker Demo.plain [0%nat; 0%nat]
           (mkGraph [Demo.x_relu]) 0%nat Demo.x_relu).
  - left.
  - reflexivity.
  - reflexivity.
Defined.

Lemma mark_nodes_permutation_witness :
  let g := mkGraph [Demo.x_relu; mkNodeDef "y" "Add" ["x"; "x"] ∅] in
  mark_nodes Demo.plain [0%nat; 1%nat] g = mark_nodes Demo.plain [1%nat; 0%nat] g.
Proof.
  intros g.
  apply (mark_nodes_permutation Demo.plain [0%nat; 1%nat] [1%nat; 0%nat] g).
  apply perm_swap.
Defined.

(** ** Init: repeated and empty configurations *)

Section InitMore.

Lemma Init_config (self : OVTFOptimizer) (params : gmap string AttrValue) :
  m_config_map (Init self params).2
  = map_fold Init_step (m_config_map self) params.
Proof. reflexivity. Qed.

(** X12: [Init] with no parameter leaves the optimizer as it is, and
    calling [Init] a second time with the same parameters changes
    nothing. *)
Theorem Init_idempotent (self : OVTFOptimizer) (params : gmap string AttrValue) :
  (Init self ∅).2 = self /\
  (Init (Init self params).2 params).2 = (Init self params).2.
Proof.
  split.
  - destruct self as [m]. unfold Init. simpl.
    rewrite map_fold_empty. reflexivity.
  - unfold Init at 1. simpl. f_equal.
    set (m1 := map_fold Init_step (m_config_map self) params).
    assert (Hgen : forall m : gmap string AttrValue,
               m ⊆ params -> map_fold Init_step m1 m = m1).
    { intros m. apply (map_fold_weak_ind
               (fun r (m : gmap string AttrValue) => m ⊆ params -> r = m1)).
      - reflexivity.
      - intros i x m' r Hfresh IH Hsub.
        rewrite IH.
        + unfold Init_step. apply insert_id.
          apply (proj1 (Init_fold (m_config_map self) params)).
          eapply lookup_weaken; [ | exact Hsub]. apply lookup_insert_eq.
        + etransitivity; [ | exact Hsub]. apply insert_subseteq. exact Hfresh. }
    apply Hgen. reflexivity.
Qed.

Lemma prefixed_key_cases {V : Type} (p k : string) (m : gmap string V) :
  (exists key, is_Some (m !! key) /\ k = p +:+ key) \/
  (forall key, is_Some (m !! key) -> k <> p +:+ key).
Proof.
  induction m as [|i x m Hfresh IH] using map_ind.
  - right. intros key [v Hv]. rewrite lookup_empty in Hv. discriminate.
  - destruct (decide (k = p +:+ i)) as [-> | Hne].
    + left. exists i. rewrite lookup_insert_eq. eauto.
    + destruct IH as [(key & Hkey & ->) | IH].
      * left. exists key. split; [ | reflexivity].
        destruct (decide (i = key)) as [-> | Hik].
        -- rewrite lookup_insert_eq. eauto.
        -- rewrite lookup_insert_ne by exact Hik. exact Hkey.
      * right. intros key Hkey.
        destruct (decide (i = key)) as [-> | Hik]; [exact Hne | ].
        rewrite lookup_insert_ne in Hkey by exact Hik. auto.
Qed.

(** X13: [Init] never removes a binding and only ever adds keys that carry
    the prefix: after [Init] a key is bound exactly when it was bound
    before or it is ["_ovtf_"] followed by the key of a parameter. *)
Theorem Init_bound_keys
    (self : OVTFOptimizer) (params : gmap string AttrValue) (k : string) :
  is_Some (m_config_map (Init self params).2 !! k) <->
  is_Some (m_config_map self !! k) \/
  exists key, is_Some (params !! key) /\ k = "_ovtf_" +:+ key.
Proof.
  rewrite Init_config.
  destruct (Init_fold (m_config_map self) params) as [Hnew Hold].
  destruct (prefixed_key_cases "_ovtf_" k params) as [(key & [v Hv] & ->) | Hno].
  - rewrite (Hnew key v Hv). split; [ | eauto].
    intros _. right. exists key. eauto.
  - rewrite (Hold k Hno). split; [auto | ].
    intros [H | (key & Hkey & ->)]; [exact H | ].
    exfalso. exact (Hno key Hkey eq_refl).
Qed.

(** X14: when [Init] runs twice, the second call wins on the keys both
    calls set, and the keys only the first call set keep the value the
    first call gave them. *)
Theorem Init_twice
    (self : OVTFOptimizer) (params1 params2 : gmap string AttrValue)
    (key : string) :
  let config := m_config_map (Init (Init self params1).2 params2).2 in
  (forall v2, params2 !! key = Some v2 ->
     config !! ("_ovtf_" +:+ key) = Some (AttrValue_s v2)) /\
  (forall v1, params1 !! key = Some v1 -> params2 !! key = None ->
     config !! ("_ovtf_" +:+ key) = Some (AttrValue_s v1)).
Proof.
  intros config. subst config. rewrite Init_config.
  destruct (Init_fold (m_config_map (Init self params1).2) params2)
    as [Hnew Hold].
  split.
  - intros v2 Hv2. exact (Hnew key v2 Hv2).
  - intros v1 Hv1 Hnone. rewrite Hold.
    + rewrite Init_config.
      exact (proj1 (Init_fold (m_config_map self) params1) key v1 Hv1).
    + intros key' [v' Hv'] Heq. apply prefix_inj in Heq. subst key'.
      rewrite Hnone in Hv'. discriminate.
Qed.

End InitMore.

Lemma Init_twice_witness :
  let p1 : gmap string AttrValue :=
    {[ "device_id" := AttrS "GPU"; "precision" := AttrS "FP16" ]} in
  let p2 : gmap string AttrValue := {[ "device_id" := AttrS "CPU" ]} in
  let config := m_config_map (Init (Init Demo.self0 p1).2 p2).2 in
  config !! "_ovtf_device_id" = Some "CPU" /\
  config !! "_ovtf_precision" = Some "FP16".
Proof.
  intros p1 p2 config. split.
  - exact (proj1 (Init_twice Demo.self0 p1 p2 "device_id") (AttrS "CPU")
             ltac:(vm_compute; reflexivity)).
  - exact (proj2 (Init_twice Demo.self0 p1 p2 "precision") (AttrS "FP16")
             ltac:(vm_compute; reflexivity) ltac:(vm_compute; reflexivity)).
Defined.

(** ** Fetch entries: what the names look like *)

Section FetchMore.

Import StdString.

Lemma first_occurrence (c : ascii) (s : string) :
  ~ occurs c s \/
  exists pre post, s = pre +:+ String c post /\ ~ occurs c pre.
Proof.
  induction s as [|a s IH].
  - left. intros (pre & post & Heq).
    destruct pre; rewrite ?append_nil, ?append_cons in Heq; discriminate.
  - destruct (Ascii.eqb_spec a c) as [-> | Hne].
    + right. exists "", s. split; [reflexivity | ].
      intros (pre & post & Heq).
      destruct pre; rewrite ?append_nil, ?append_cons in Heq; discriminate.
    + destruct IH as [Hno | (pre & post & -> & Hpre)].
      * left. rewrite occurs_cons. tauto.
      * right. exists (String a pre), post. split; [reflexivity | ].
        rewrite occurs_cons. tauto.
Qed.

(** X15: for an entry whose length fits an [int], the name taken from it
    never contains ':' and is no longer than the entry; taking the name of
    a name gives the name again. *)
Theorem fetch_node_name_colon_free (f : string) :
  Z.of_nat (String.length f) <= Int.INT_MAX ->
  ~ occurs ":" (fetch_node_name f) /\
  (String.length (fetch_node_name f) <= String.length f)%nat /\
  fetch_node_name (fetch_node_name f) = fetch_node_name f.
Proof.
  intros Hlen.
  assert (Hfirst : ~ occurs ":" (fetch_node_name f) /\
                   (String.length (fetch_node_name f) <= String.length f)%nat).
  { destruct (first_occurrence ":" f) as [Hno | (pre & post & -> & Hpre)].
    - rewrite fetch_node_name_whole by assumption. split; [exact Hno | lia].
    - rewrite fetch_node_name_prefix by assumption.
      split; [exact Hpre | ]. rewrite length_app. lia. }
  destruct Hfirst as [Hno Hle]. split; [exact Hno | split; [exact Hle | ]].
  apply fetch_node_name_whole; [lia | exact Hno].
Qed.

(** X16: the set of fetch nodes of two lists put end to end is the union
    of their sets, it does not depend on the order of the entries, and it
    never has more elements than there are entries. *)
Theorem fetch_nodes_of_lists (fetch1 fetch2 : list string) :
  fetch_nodes_of (fetch1 ++ fetch2)%list
    = fetch_nodes_of fetch1 ∪ fetch_nodes_of fetch2 /\
  (fetch1 ≡ₚ fetch2 -> fetch_nodes_of fetch1 = fetch_nodes_of fetch2) /\
  (size (fetch_nodes_of fetch1) <= length fetch1)%nat.
Proof.
  assert (Hset : forall l, fetch_nodes_of l = list_to_set (fetch_node_name <$> l)).
  { intros l. unfold fetch_nodes_of. rewrite fetch_nodes_of_acc.
    apply union_empty_r_L. }
  split; [ | split].
  - rewrite !Hset, fmap_app. apply list_to_set_app_L.
  - intros Hperm. rewrite !Hset. apply list_to_set_perm_L.
    apply fmap_Permutation. exact Hperm.
  - rewrite Hset. clear Hset.
    induction fetch1 as [|f l IH].
    + rewrite fmap_nil, list_to_set_nil, size_empty. reflexivity.
    + rewrite fmap_cons, list_to_set_cons, size_union_alt, size_singleton.
      cbn [length].
      assert (size (list_to_set (fetch_node_name <$> l)
                      ∖ ({[fetch_node_name f]} : gset string))
              <= size (list_to_set (fetch_node_name <$> l) : gset string))%nat
        by (apply subseteq_size; set_solver).
      lia.
Qed.

(** X17: an empty entry, or an entry that begins with ':', puts the empty
    name in the set of fetch nodes: the loop has no guard against it. *)
Theorem fetch_nodes_of_empty_name (fetch : list string) (f : string) :
  f ∈ fetch ->
  f = "" \/ (exists rest, f = String ":" rest) ->
  fetch_node_name f = "" /\ "" ∈ fetch_nodes_of fetch.
Proof.
  intros Hf Hshape.
  assert (Hname : fetch_node_name f = "").
  { destruct Hshape as [-> | (rest & ->)]; [reflexivity | ].
    unfold fetch_node_name, find. simpl find_from.
    change (Int.to_size_t (Int.to_int 0)) with 0.
    unfold substr0. rewrite Z.min_l by lia. reflexivity. }
  split; [exact Hname | ].
  unfold fetch_nodes_of. rewrite fetch_nodes_of_acc.
  apply elem_of_union_l, elem_of_list_to_set, list_elem_of_fmap.
  exists f. auto.
Qed.

End FetchMore.

Lemma fetch_node_name_colon_free_witness :
  ~ StdString.occurs ":" (fetch_node_name "logits:0:1") /\
  (String.length (fetch_node_name "logits:0:1")
   <= String.length "logits:0:1")%nat /\
  fetch_node_name (fetch_node_name "logits:0:1") = fetch_node_name "logits:0:1".
Proof.
  apply (fetch_node_name_colon_free "logits:0:1").
  vm_compute. discriminate.
Defined.

Lemma fetch_nodes_of_lists_witness :
  fetch_nodes_of ["a:0"; "b"] = fetch_nodes_of ["b"; "a:0"].
Proof.
  apply (proj1 (proj2 (fetch_nodes_of_lists ["a:0"; "b"] ["b"; "a:0"]))).
  apply perm_swap.
Defined.

Lemma fetch_nodes_of_empty_name_witness :
  fetch_node_name ":0" = "" /\ "" ∈ fetch_nodes_of ["loss"; ":0"].
Proof.
  apply (fetch_nodes_of_empty_name ["loss"; ":0"] ":0").
  - right. left.
  - right. exists "0". reflexivity.
Defined.

(** ** The graph iterator under any sequence of calls *)

Module IteratorOpsFacts.

Import GraphIterator IteratorOps.

Lemma run_snoc (ops : list Op) (o : Op) (it : OVTFGraphIterator) :
  run (ops ++ [o]) it = step (run ops it) o.
Proof. unfold run. apply foldl_snoc. Qed.

Lemma to_size_t_range (z : Z) : 0 <= Int.to_size_t z <= Int.SIZE_MAX.
Proof.
  unfold Int.to_size_t, Int.SIZE_MAX.
  pose proof (Z.mod_pos_bound z (2 ^ 64) ltac:(lia)). lia.
Qed.

(** X18: [reset] and [next], in any number and order, never touch the
    table of nodes nor the graph pointer, so [size()] stays the same; and
    on an iterator whose index is a valid [size_t], as after construction,
    the index stays one. *)
Theorem run_keeps_nodes (ops : list Op) (it : OVTFGraphIterator) :
  m_nodes (run ops it) = m_nodes it /\
  m_graph_def (run ops it) = m_graph_def it /\
  size (run ops it) = size it /\
  (0 <= node_index it <= Int.SIZE_MAX ->
   0 <= node_index (run ops it) <= Int.SIZE_MAX).
Proof.
  induction ops as [|o ops IH] using rev_ind.
  - repeat split; tauto.
  - rewrite run_snoc. destruct IH as (Hn & Hg & Hs & Hi).
    assert (Hsize : forall it' : OVTFGraphIterator,
               m_nodes it' = m_nodes it -> size it' = size it)
      by (intros it' Heq; unfold size; rewrite Heq; reflexivity).
    destruct o; cbn [step].
    + split; [exact Hn | split; [exact Hg | split]].
      * apply Hsize. exact Hn.
      * intros _. cbn [reset node_index]. unfold Int.SIZE_MAX. lia.
    + split; [exact Hn | split; [exact Hg | split]].
      * apply Hsize. exact Hn.
      * intros _. cbn [next node_index]. apply to_size_t_range.
Qed.

(** X19: the iterator can be restarted at any time: whatever calls were
    made before, a traversal that begins with [reset] yields what it
    yields on the iterator as first given. *)
Theorem traverse_after_any_calls
    (ops : list Op) (fuel : nat) (it : OVTFGraphIterator) :
  traverse fuel (run ops it) = traverse fuel it.
Proof.
  unfold traverse, reset.
  destruct (run_keeps_nodes ops it) as (-> & -> & _). reflexivity.
Qed.

(** X20: on an iterator built over a graph, after any calls,
    [get_decoder] has a defined result exactly when [is_end] is false, and
    the decoder it then returns wraps the node of the graph at the current
    index, never a null pointer; once [is_end] holds the read of [m_nodes]
    is out of bounds. *)
Theorem get_decoder_defined_before_end (g : GraphDef) (ops : list Op) :
  GraphDef_wf g ->
  let it := run ops (make g) in
  (is_end it = false <-> is_Some (get_decoder it)) /\
  (is_end it = true -> get_decoder it = None) /\
  (forall d, get_decoder it = Some d ->
     exists nd, m_node_def d = Some nd /\
                gd_node g !! Z.to_nat (node_index it) = Some nd).
Proof.
  intros Hwf it.
  destruct (run_keeps_nodes ops (make g)) as (Hn & _ & _ & Hi).
  fold it in Hn, Hi.
  rewrite GraphIteratorFacts.make_nodes in Hn by exact Hwf.
  assert (Hidx : 0 <= node_index it) by (apply Hi; simpl; unfold Int.SIZE_MAX; lia).
  assert (Hlook : m_nodes it !! Z.to_nat (node_index it)
                  = Some <$> gd_node g !! Z.to_nat (node_index it))
    by (rewrite Hn; apply list_lookup_fmap).
  assert (Hend : is_end it = true <->
                 (length (gd_node g) <= Z.to_nat (node_index it))%nat).
  { unfold is_end, size. rewrite Hn, length_fmap, Z.leb_le. lia. }
  unfold get_decoder. rewrite Hlook.
  destruct (gd_node g !! Z.to_nat (node_index it)) as [nd|] eqn:Hnd; simpl.
  - apply lookup_lt_Some in Hnd.
    assert (Hnot : is_end it = false).
    { destruct (is_end it) eqn:He; [ | reflexivity].
      pose proof (proj1 Hend eq_refl). lia. }
    split; [split; [eauto | intros _; exact Hnot] | split].
    + rewrite Hnot. discriminate.
    + intros d [= <-]. exists nd. split; reflexivity.
  - apply lookup_ge_None in Hnd. apply Hend in Hnd.
    split; [split | split].
    + rewrite Hnd. discriminate.
    + intros [d Hd]. discriminate Hd.
    + reflexivity.
    + intros d Hd. discriminate Hd.
Qed.

End IteratorOpsFacts.

Lemma run_keeps_nodes_witness :
  let it := GraphIterator.make Demo.graph_x in
  let it' := IteratorOps.run
               [IteratorOps.op_next; IteratorOps.op_next; IteratorOps.op_reset;
                IteratorOps.op_next] it in
  0 <= GraphIterator.node_index it' <= Int.SIZE_MAX.
Proof.
  intros it it'.
  apply (proj2 (proj2 (proj2 (IteratorOpsFacts.run_keeps_nodes _ it)))).
  vm_compute. split; discriminate.
Defined.

Lemma get_decoder_defined_before_end_witness :
  let it := IteratorOps.run [IteratorOps.op_next; IteratorOps.op_reset]
              (GraphIterator.make Demo.graph_x) in
  GraphIterator.is_end it = false <-> is_Some (GraphIterator.get_decoder it).
Proof.
  intros it.
  apply (proj1 (IteratorOpsFacts.get_decoder_defined_before_end Demo.graph_x
                  [IteratorOps.op_next; IteratorOps.op_reset]
                  ltac:(vm_compute; discriminate))).
Defined.
